(** * Telecom Assistant (app.py): a shallow embedding and its properties

    The program is a Streamlit script: every user interaction re-runs the
    script top to bottom against a per-session store ([st.session_state])
    and two process-wide memo slots ([st.cache_resource]).  The embedding
    below models

    - Python strings as [string], with [in], [endswith] and [join];
    - Python exceptions as values of [exn], with [except Exception] and the
      bare [except] as two distinct handlers;
    - the external world (environment variables, file system, PDF loader,
      embedding index, Gemini, Tavily) as a record of oracles [Env];
    - the script as a state-and-exception monad over [World], which carries
      the log of external calls and UI elements, the two memo slots and the
      session's message list. *)

From Stdlib Require Import String Ascii List Bool Arith Lia ZArith.
From Stdlib Require Import Sorted Permutation.
Import ListNotations.
Open Scope string_scope.

Set Implicit Arguments.

(** ** Python string operations used by the script *)

Module PyStr.

(** [needle in hay] for two Python strings. *)
Fixpoint str_in (needle hay : string) : bool :=
  String.prefix needle hay ||
  match hay with
  | EmptyString => false
  | String _ rest => str_in needle rest
  end.

(** [s.startswith(p)] is [String.prefix p s]; [s.endswith(suffix)] compares
    the last [length suffix] characters. *)
Definition endswith (s suffix : string) : bool :=
  Nat.leb (String.length suffix) (String.length s) &&
  String.eqb
    (String.substring (String.length s - String.length suffix)
                      (String.length suffix) s)
    suffix.

(** [sep.join(parts)]. *)
Fixpoint join (sep : string) (parts : list string) : string :=
  match parts with
  | [] => ""
  | [p] => p
  | p :: rest => p ++ sep ++ join sep rest
  end.

(** Truthiness of a Python string and of an optional one ([None] is falsy,
    and so is the empty string). *)
Definition truthy (s : string) : bool :=
  match s with EmptyString => false | String _ _ => true end.

Definition truthy_opt (o : option string) : bool :=
  match o with None => false | Some s => truthy s end.

(** The double-quote character and the line feed. *)
Definition dquote : string := String (ascii_of_nat 34) EmptyString.
Definition nl : string := String (ascii_of_nat 10) EmptyString.

End PyStr.
Import PyStr.

(** ** Exceptions and results *)

(** [PyException msg] stands for any instance of [Exception], identified by
    its [str()].  [st.stop()] and [st.rerun()] raise Streamlit's script
    control exceptions, which derive from [BaseException] and are therefore
    not caught by [except Exception]. *)
Inductive exn : Type :=
| PyException (msg : string)
| StopException
| RerunException.

Definition is_Exception (e : exn) : bool :=
  match e with PyException _ => true | _ => false end.

(** [str(e)], as interpolated by an f-string. *)
Definition str_exn (e : exn) : string :=
  match e with PyException msg => msg | _ => "" end.

Inductive result (A : Type) : Type :=
| Ret (a : A)
| Raise (e : exn).
Arguments Ret {A} a.
Arguments Raise {A} e.

(** What an external call yields: a value, or a failure with its message. *)
Inductive ext (A : Type) : Type :=
| Success (a : A)
| Failure (msg : string).
Arguments Success {A} a.
Arguments Failure {A} msg.

(** ** Data *)

(** A LangChain [Document]: one PDF page, or one chunk of it. *)
Record Document : Type := {
  page_content : string;
  source : string;
  page : nat
}.

(** The vector store is used through one method only. *)
Record VectorStore : Type := {
  similarity_search : string -> nat -> ext (list Document)
}.

(** An entry of [genai.list_models()]. *)
Record ModelInfo : Type := {
  name : string;
  supported_generation_methods : list string
}.

(** A chat message, [{"role": ..., "content": ...}]. *)
Record Message : Type := {
  role : string;
  content : string
}.

(** ** Log of external calls and UI elements *)

Inductive Event : Type :=
| EvPathExists (path : string)
| EvListdir (path : string)
| EvLoadPdf (path : string)
| EvSplit (docs : list Document)
| EvEmbed (chunks : list Document)
| EvListModels
| EvSimilaritySearch (query : string) (k : nat)
| EvGenerate (model prompt : string)
| EvTavily (query : string) (max_results : nat)
| UiError (msg : string)
| UiInfo (msg : string)
| UiStatusEmpty
| UiDecor (tag : string)
| UiButton (label : string)
| UiChatMessage (m : Message)
| UiChatInput (placeholder : string)
| UiChatOpen (role : string)
| UiSpinner (text : string)
| UiWrite (text : string).

(** ** The external world *)

(** The folder is read once per process, so the file system and the index
    builder are a snapshot.  The hosted services answer depending on
    everything that was logged before the call. *)
Record Env : Type := {
  getenv : string -> option string;
  path_exists : string -> bool;
  listdir : string -> ext (list string);
  pdf_load : string -> ext (list Document);
  split_documents : list Document -> ext (list Document);
  from_documents : list Document -> ext VectorStore;
  list_models : list Event -> list ModelInfo * option string;
  generate_content : list Event -> string -> string -> ext string;
  tavily_invoke : list Event -> string -> nat -> ext string
}.

(** ** Program state *)

Record World : Type := {
  trace : list Event;
  vector_store_cache : option (option VectorStore);
  model_name_cache : option string;
  messages : option (list Message)
}.

Definition log (ev : Event) (w : World) : World :=
  {| trace := (trace w ++ [ev])%list;
     vector_store_cache := vector_store_cache w;
     model_name_cache := model_name_cache w;
     messages := messages w |}.

Definition set_messages (ms : list Message) (w : World) : World :=
  {| trace := trace w;
     vector_store_cache := vector_store_cache w;
     model_name_cache := model_name_cache w;
     messages := Some ms |}.

Definition set_vector_store_cache (v : option VectorStore) (w : World) : World :=
  {| trace := trace w;
     vector_store_cache := Some v;
     model_name_cache := model_name_cache w;
     messages := messages w |}.

Definition set_model_name_cache (v : string) (w : World) : World :=
  {| trace := trace w;
     vector_store_cache := vector_store_cache w;
     model_name_cache := Some v;
     messages := messages w |}.

(** ** The script monad *)

Definition M (A : Type) : Type := World -> result A * World.

Definition ret {A} (a : A) : M A := fun w => (Ret a, w).

Definition raise {A} (e : exn) : M A := fun w => (Raise e, w).

Definition bind {A B} (m : M A) (k : A -> M B) : M B :=
  fun w =>
    match m w with
    | (Ret a, w') => k a w'
    | (Raise e, w') => (Raise e, w')
    end.

Declare Scope script_scope.
Delimit Scope script_scope with script.
Notation "x <- c1 ;; c2" := (bind c1 (fun x => c2))
  (at level 100, c1 at next level, right associativity) : script_scope.
Notation "c1 ;;; c2" := (bind c1 (fun _ => c2))
  (at level 100, right associativity) : script_scope.
Open Scope script_scope.

(** [try: body  except Exception as e: handler e]. *)
Definition try_except_Exception {A} (body : M A) (handler : exn -> M A) : M A :=
  fun w =>
    match body w with
    | (Raise e, w') => if is_Exception e then handler e w' else (Raise e, w')
    | r => r
    end.

(** [try: body  except: handler]. *)
Definition try_except {A} (body : M A) (handler : M A) : M A :=
  fun w =>
    match body w with
    | (Raise _, w') => handler w'
    | r => r
    end.

Definition emit (ev : Event) : M unit := fun w => (Ret tt, log ev w).

Definition lift_ext {A} (r : ext A) : result A :=
  match r with
  | Success a => Ret a
  | Failure msg => Raise (PyException msg)
  end.

(** An external call: the oracle sees the log so far, then the call is
    logged. *)
Definition call {A} (ev : Event) (oracle : list Event -> ext A) : M A :=
  fun w => (lift_ext (oracle (trace w)), log ev w).

(** Modelled from the spec: the decorator [@st.cache_resource] is
    Streamlit's and is not defined in app.py.  The spec gives the cached
    construction as performed at most once per process lifetime, later
    calls reusing the cached instance without rebuilding: the body runs
    when the slot is empty and its return value fills the slot; a raised
    exception is not stored. *)
Definition cache_resource {A} (slot : World -> option A)
    (fill : A -> World -> World) (body : M A) : M A :=
  fun w =>
    match slot w with
    | Some v => (Ret v, w)
    | None =>
        match body w with
        | (Ret v, w') => (Ret v, fill v w')
        | r => r
        end
    end.

Definition greeting_text : string :=
  "Hello! 👋 I can help you find the best data packages or fix router issues. What do you need today?".

Definition checking_online : Event := UiInfo "🔍 Checking online sources...".

(** ** The logic functions of app.py *)

Section Program.

Variable E : Env.

Definition data_folder : string := "data".

(** [os.path.join(data_folder, file)] for a name returned by [os.listdir]. *)
Definition path_join (folder file : string) : string := folder ++ "/" ++ file.

(** The loop of [get_vector_store] over [os.listdir(data_folder)]:
    every name ending in ".pdf" is loaded and its pages extend
    [documents]. *)
Fixpoint load_all (files : list string) (documents : list Document)
  : M (list Document) :=
  match files with
  | [] => ret documents
  | file :: rest =>
      if endswith file ".pdf" then
        (pages <- call (EvLoadPdf (path_join data_folder file))
                       (fun _ => pdf_load E (path_join data_folder file)) ;;
         load_all rest (documents ++ pages)%list)
      else load_all rest documents
  end.

(** The body of [get_vector_store] (lines 64-91). *)
Definition get_vector_store_body : M (option VectorStore) :=
  found <- call (EvPathExists data_folder)
                (fun _ => Success (path_exists E data_folder)) ;;
  if negb found then
    (emit (UiError "Folder 'data' not found! Please create a 'data' folder.") ;;;
     ret None)
  else
    try_except_Exception
      (files <- call (EvListdir data_folder) (fun _ => listdir E data_folder) ;;
       documents <- load_all files [] ;;
       match documents with
       | [] =>
           (emit (UiError "No PDF files found in 'data' folder!") ;;;
            ret None)
       | _ :: _ =>
           (splits <- call (EvSplit documents)
                           (fun _ => split_documents E documents) ;;
            vectorstore <- call (EvEmbed splits)
                                (fun _ => from_documents E splits) ;;
            ret (Some vectorstore))
       end)
      (fun e =>
         emit (UiError ("Error loading PDFs: " ++ str_exn e)) ;;;
         ret None).

(** [get_vector_store] under [@st.cache_resource]. *)
Definition get_vector_store : M (option VectorStore) :=
  cache_resource vector_store_cache set_vector_store_cache get_vector_store_body.

(** The loop of [get_working_model_name] over the models already yielded. *)
Fixpoint pick_model (models : list ModelInfo) : option string :=
  match models with
  | [] => None
  | m :: rest =>
      if existsb (String.eqb "generateContent") (supported_generation_methods m)
      then
        if str_in "flash" (name m) || str_in "pro" (name m)
        then Some (name m)
        else pick_model rest
      else pick_model rest
  end.

(** The body of [get_working_model_name] (lines 95-102).  [list_models]
    yields some entries and then either stops or raises; a match found
    before the failure is returned. *)
Definition get_working_model_name_body : M string :=
  fun w =>
    let '(yielded, failure) := list_models E (trace w) in
    let w' := log EvListModels w in
    match pick_model yielded with
    | Some n => (Ret n, w')
    | None =>
        match failure with
        | None => (Ret "models/gemini-1.5-flash", w')
        | Some _ => (Ret "models/gemini-pro", w')
        end
    end.

Definition get_working_model_name : M string :=
  cache_resource model_name_cache set_model_name_cache
                 get_working_model_name_body.

(** The two f-strings of [generate_answer]. *)
Definition pdf_prompt (context_text query : string) : string :=
  nl ++
  "    You are a polite and helpful Customer Support Agent for a Sri Lankan Telecommunications Company." ++ nl ++
  "    " ++ nl ++
  "    Context from Guides:" ++ nl ++
  "    " ++ context_text ++ nl ++
  "    " ++ nl ++
  "    Customer Question: " ++ query ++ nl ++
  "    " ++ nl ++
  "    Instructions:" ++ nl ++
  "    1. Be friendly and concise." ++ nl ++
  "    2. If the user asks for a price/code, give exact details from the text." ++ nl ++
  "    3. If the answer is NOT in the context, reply exactly " ++ dquote ++ "NOT_FOUND" ++ dquote ++ "." ++ nl ++
  "    ".

Definition web_prompt (web_results query : string) : string :=
  nl ++
  "            You are a Telecom Support Agent. The internal document didn't have the answer, so use these web search results." ++ nl ++
  "            " ++ nl ++
  "            Web Results: " ++ web_results ++ nl ++
  "            Question: " ++ query ++ nl ++
  "            " ++ nl ++
  "            Answer helpfully and summarize the best options." ++ nl ++
  "            ".

Definition sentinel : string := "NOT_FOUND".

Definition apology : string :=
  "I couldn't find that information in our guides or online.".

Definition secondary_model : string := "models/gemini-1.0-pro".

(** [genai.GenerativeModel(model).generate_content(prompt).text]. *)
Definition invoke_model (model prompt : string) : M string :=
  call (EvGenerate model prompt)
       (fun tr => generate_content E tr model prompt).

(** Lines 124-134 of [generate_answer]: the primary invocation, and in its
    handler the retry.  [inl s] is the early [return s]; [inr (answer,
    model)] carries on with the two variables the rest of the function
    reads. *)
Definition answer_stage (model_name prompt : string)
  : M (string + string * string) :=
  try_except_Exception
    (answer <- invoke_model model_name prompt ;;
     ret (inr (answer, model_name)))
    (fun e =>
       try_except
         (answer <- invoke_model secondary_model prompt ;;
          ret (inr (answer, secondary_model)))
         (ret (inl ("System Error: " ++ str_exn e)))).

(** Lines 137-159: the branch taken when the answer holds the sentinel.
    The Tavily result is used through its [str()] only. *)
Definition web_fallback (query model : string) : M string :=
  emit checking_online ;;;
  try_except_Exception
    (web_results <- call (EvTavily query 3)
                         (fun tr => tavily_invoke E tr query 3) ;;
     final_answer <- invoke_model model (web_prompt web_results query) ;;
     emit UiStatusEmpty ;;;
     ret final_answer)
    (fun _ => ret apology).

(** [generate_answer] (lines 104-162). *)
Definition generate_answer (query : string) (vector_store : VectorStore)
    (chat_history : list Message) : M string :=
  model_name <- get_working_model_name ;;
  docs <- call (EvSimilaritySearch query 3)
               (fun _ => similarity_search vector_store query 3) ;;
  let context_text := join (nl ++ nl) (map page_content docs) in
  stage <- answer_stage model_name (pdf_prompt context_text query) ;;
  match stage with
  | inl system_error => ret system_error
  | inr (answer, model) =>
      if str_in sentinel answer
      then web_fallback query model
      else ret answer
  end.

(** ** The script *)

(** What the widgets return in one run of the script. *)
Record Inputs : Type := {
  clear_clicked : bool;
  chat_input : option string
}.

Definition greeting : Message :=
  {| role := "ai"; content := greeting_text |}.

(** [for msg in st.session_state.messages: ...] *)
Fixpoint render_history (ms : list Message) : M unit :=
  match ms with
  | [] => ret tt
  | msg :: rest => emit (UiChatMessage msg) ;;; render_history rest
  end.

(** [st.session_state.messages.append(m)]. *)
Definition append_message (m : Message) : M unit :=
  fun w =>
    match messages w with
    | Some ms => (Ret tt, set_messages (ms ++ [m])%list w)
    | None => (Raise (PyException "st.session_state has no attribute 'messages'"), w)
    end.

Definition get_messages : M (list Message) :=
  fun w =>
    match messages w with
    | Some ms => (Ret ms, w)
    | None => (Raise (PyException "st.session_state has no attribute 'messages'"), w)
    end.

(** Lines 175-199, run when [vector_store] is truthy.  A stored message
    is drawn as one bubble with its text ([UiChatMessage]).  For the
    answer the bubble is opened first ([with st.chat_message("ai")], line
    195), then the spinner is shown, [generate_answer] is called, and only
    then the text is written into the bubble (line 198). *)
Definition chat_surface (inp : Inputs) (vector_store : VectorStore) : M unit :=
  (fun w =>
     match messages w with
     | None => (Ret tt, set_messages [greeting] w)
     | Some _ => (Ret tt, w)
     end) ;;;
  history <- get_messages ;;
  render_history history ;;;
  emit (UiChatInput "Type your question here...") ;;;
  match chat_input inp with
  | Some user_input =>
      if truthy user_input then
        (emit (UiChatMessage {| role := "human"; content := user_input |}) ;;;
         append_message {| role := "human"; content := user_input |} ;;;
         emit (UiChatOpen "ai") ;;;
         emit (UiSpinner "Thinking...") ;;;
         history <- get_messages ;;
         response_text <- generate_answer user_input vector_store history ;;
         emit (UiWrite response_text) ;;;
         append_message {| role := "ai"; content := response_text |})
      else ret tt
  | None => ret tt
  end.

Definition keys_error : Event :=
  UiError "⚠️ Error: Keys not found. Please check your .env file.".

(** Lines 15-59 and 167-169: the key check, the page set-up, the sidebar
    with its reset button, and the header. *)
Definition page_top (inp : Inputs) : M unit :=
  let google_api_key := getenv E "GOOGLE_API_KEY" in
  let tavily_api_key := getenv E "TAVILY_API_KEY" in
  (if negb (truthy_opt google_api_key) || negb (truthy_opt tavily_api_key)
   then (emit keys_error ;;; raise StopException)
   else ret tt) ;;;
  emit (UiDecor "page_config") ;;;
  emit (UiDecor "style") ;;;
  emit (UiDecor "sidebar") ;;;
  emit (UiButton "🔄 Clear Conversation") ;;;
  (if clear_clicked inp
   then ((fun w => (Ret tt, set_messages [] w)) ;;; raise RerunException)
   else ret tt) ;;;
  emit (UiDecor "sidebar-caption") ;;;
  emit (UiDecor "header").

(** One run of app.py, top to bottom. *)
Definition script (inp : Inputs) : M unit :=
  page_top inp ;;;
  vector_store <- get_vector_store ;;
  match vector_store with
  | Some vs => chat_surface inp vs
  | None => ret tt
  end.

(** Streamlit runs the script for a widget event and, when the run asks for
    it with [st.rerun()], once more with the trigger widgets reset. *)
Definition no_inputs : Inputs := {| clear_clicked := false; chat_input := None |}.

Definition interaction (inp : Inputs) : M unit :=
  fun w =>
    match script inp w with
    | (Raise RerunException, w') => script no_inputs w'
    | r => r
    end.

End Program.

(** ** Reading the log *)

Definition is_tavily (ev : Event) : bool :=
  match ev with EvTavily _ _ => true | _ => false end.

Definition is_embed (ev : Event) : bool :=
  match ev with EvEmbed _ => true | _ => false end.

Definition is_file_read (ev : Event) : bool :=
  match ev with
  | EvPathExists _ | EvListdir _ | EvLoadPdf _ => true
  | _ => false
  end.

Definition count (p : Event -> bool) (tr : list Event) : nat :=
  length (filter p tr).

(** What was logged between an earlier and a later world. *)
Definition events_since (w w' : World) : list Event :=
  skipn (length (trace w)) (trace w').

(** What is written into the bubble that was just opened: the text of
    the first [st.write] logged before another bubble is drawn, and
    nothing when there is none. *)
Fixpoint written (tr : list Event) : string :=
  match tr with
  | [] => ""
  | UiWrite text :: _ => text
  | UiChatMessage _ :: _ => ""
  | UiChatOpen _ :: _ => ""
  | _ :: rest => written rest
  end.

(** The chat bubbles on the page, in drawing order: the bubbles drawn with
    their text, and the bubbles opened, each with what was written into
    it. *)
Fixpoint rendered (tr : list Event) : list Message :=
  match tr with
  | [] => []
  | UiChatMessage m :: rest => m :: rendered rest
  | UiChatOpen r :: rest =>
      {| role := r; content := written rest |} :: rendered rest
  | _ :: rest => rendered rest
  end.

Definition is_open (ev : Event) : bool :=
  match ev with UiChatOpen _ => true | _ => false end.

(** Entries that draw no bubble and write no text. *)
Definition silent (ev : Event) : bool :=
  match ev with
  | UiChatMessage _ | UiChatOpen _ | UiWrite _ => false
  | _ => true
  end.

Definition chat_input_drawn (tr : list Event) : bool :=
  existsb (fun ev => match ev with UiChatInput _ => true | _ => false end) tr.

Definition error_drawn (tr : list Event) : bool :=
  existsb (fun ev => match ev with UiError _ => true | _ => false end) tr.


(** The same world with another session store. *)
Definition with_messages (ms : option (list Message)) (w : World) : World :=
  {| trace := trace w;
     vector_store_cache := vector_store_cache w;
     model_name_cache := model_name_cache w;
     messages := ms |}.

(** A fresh process with a fresh session. *)
Definition initial_world : World :=
  {| trace := [];
     vector_store_cache := None;
     model_name_cache := None;
     messages := None |}.

(** The first run of the script in a fresh process. *)
Definition startup (E : Env) : result unit * World :=
  script E no_inputs initial_world.

(** ** The embedding index *)

Module Faiss.

Definition vec : Type := list Z.

(** Squared Euclidean distance.  Only the order of distances matters to
    the search, so the coordinates are taken in [Z]. *)
Fixpoint sq_dist (u v : vec) : Z :=
  match u, v with
  | a :: u', b :: v' => ((a - b) * (a - b) + sq_dist u' v')%Z
  | _, _ => 0%Z
  end.

Record Index : Type := {
  embed : string -> vec;
  chunks : list Document
}.

Definition distance (ix : Index) (query : string) (d : Document) : Z :=
  sq_dist (embed ix query) (embed ix (page_content d)).

(** [a] is at most as far as [b]. *)
Definition le_by {A} (key : A -> Z) (a b : A) : Prop := (key a <= key b)%Z.

Fixpoint insert_by {A} (key : A -> Z) (x : A) (l : list A) : list A :=
  match l with
  | [] => [x]
  | y :: rest =>
      if Z.leb (key x) (key y) then x :: l else y :: insert_by key x rest
  end.

Fixpoint sort_by {A} (key : A -> Z) (l : list A) : list A :=
  match l with
  | [] => []
  | x :: rest => insert_by key x (sort_by key rest)
  end.

(** Modelled from the spec: the search of the Embedding Index, which the
    source delegates to the FAISS library ([similarity_search] is not
    defined in app.py).  The spec gives it as [search(query_text, k)], an
    ordered sequence of up to k chunks by ascending vector distance, over
    vectors computed by a deterministic embedding function. *)
Definition search (ix : Index) (query : string) (k : nat) : list Document :=
  firstn k (sort_by (distance ix query) (chunks ix)).

Definition store (ix : Index) : VectorStore :=
  {| similarity_search := fun query k => Success (search ix query k) |}.

End Faiss.

(** ** Sample worlds *)

Module Demo.

Definition chunk (text : string) (n : nat) : Document :=
  {| page_content := text; source := "data/packages.pdf"; page := n |}.

Definition guide : list Document :=
  [ chunk "10GB package costs 1000 LKR" 0;
    chunk "Router reset: hold the button for ten seconds" 1;
    chunk "Hotline 1717 is open all day" 2;
    chunk "Fibre plans start at 2500 LKR" 3 ].

(** A one-dimensional embedding: the length of the text. *)
Definition embed_len (s : string) : Faiss.vec := [Z.of_nat (String.length s)].

Definition index : Faiss.Index :=
  {| Faiss.embed := embed_len; Faiss.chunks := guide |}.

Definition store_ok : VectorStore := Faiss.store index.

Definition store_down : VectorStore :=
  {| similarity_search := fun _ _ => Failure "embedding backend unavailable" |}.

Definition flash : ModelInfo :=
  {| name := "models/gemini-1.5-flash";
     supported_generation_methods := ["generateContent"; "countTokens"] |}.

Definition embedder : ModelInfo :=
  {| name := "models/embedding-001";
     supported_generation_methods := ["embedContent"] |}.

(** A world where everything is in place; the two hosted services are
    left open. *)
Definition env (files : list string) (load : string -> ext (list Document))
    (store : VectorStore)
    (gen : list Event -> string -> string -> ext string)
    (tav : list Event -> string -> nat -> ext string) : Env :=
  {| getenv := fun _ => Some "secret";
     path_exists := fun _ => true;
     listdir := fun _ => Success files;
     pdf_load := load;
     split_documents := fun docs => Success docs;
     from_documents := fun _ => Success store;
     list_models := fun _ => ([embedder; flash], None);
     generate_content := gen;
     tavily_invoke := tav |}.

Definition load_guide (path : string) : ext (list Document) := Success guide.

Definition gen_const (text : string) : list Event -> string -> string -> ext string :=
  fun _ _ _ => Success text.

Definition gen_down : list Event -> string -> string -> ext string :=
  fun _ _ _ => Failure "503 service unavailable".

Definition tav_ok : list Event -> string -> nat -> ext string :=
  fun _ _ _ => Success "[{'url': 'https://example.lk', 'content': 'Roaming pack 990 LKR'}]".

Definition tav_down : list Event -> string -> nat -> ext string :=
  fun _ _ _ => Failure "401 unauthorized".

(** The model answers the grounded prompt with the sentinel and the web
    prompt with [text]: the web prompt is the one sent after a Tavily
    call. *)
Definition gen_after_web (text : string)
  : list Event -> string -> string -> ext string :=
  fun tr _ _ =>
    if existsb is_tavily tr then Success text else Success "NOT_FOUND".

(** A session in the middle of a conversation, index already built. *)
Definition busy (store : VectorStore) : World :=
  {| trace := [];
     vector_store_cache := Some (Some store);
     model_name_cache := Some "models/gemini-1.5-flash";
     messages := Some [ greeting;
                        {| role := "human"; content := "hi" |};
                        {| role := "ai"; content := "How can I help?" |} ] |}.

End Demo.

(** Sample runs used below. *)
Module Sample.

Definition roaming_question : string := "Do you have roaming packs for India?".

Definition roaming_answer : string := "Yes: a roaming pack for India costs 990 LKR.".

(** Guides lack the answer, the web has it. *)
Definition env_web : Env :=
  Demo.env ["packages.pdf"] Demo.load_guide Demo.store_ok
           (Demo.gen_after_web roaming_answer) Demo.tav_ok.

(** Guides lack the answer and the model repeats the sentinel on the web
    prompt. *)
Definition env_stubborn : Env :=
  Demo.env ["packages.pdf"] Demo.load_guide Demo.store_ok
           (Demo.gen_const "NOT_FOUND") Demo.tav_ok.

(** Guides lack the answer and the web search is down. *)
Definition env_web_down : Env :=
  Demo.env ["packages.pdf"] Demo.load_guide Demo.store_ok
           (Demo.gen_const "NOT_FOUND") Demo.tav_down.

(** The model service is down. *)
Definition env_model_down : Env :=
  Demo.env ["packages.pdf"] Demo.load_guide Demo.store_ok
           Demo.gen_down Demo.tav_ok.

(** The vector store fails on every search. *)
Definition env_search_down : Env :=
  Demo.env ["packages.pdf"] Demo.load_guide Demo.store_down
           (Demo.gen_const "The 10GB package costs 1000 LKR.") Demo.tav_ok.

(** A PDF that cannot be parsed. *)
Definition env_broken_pdf : Env :=
  Demo.env ["packages.pdf"] (fun _ => Failure "EOF marker not found")
           Demo.store_ok (Demo.gen_const "ok") Demo.tav_ok.

Definition docs_for (q : string) : list Document := Faiss.search Demo.index q 3.

Definition prompt_for (q : string) : string :=
  pdf_prompt (join (nl ++ nl) (map page_content (docs_for q))) q.

Definition flash_name : string := "models/gemini-1.5-flash".

Definition after_name (E : Env) : World :=
  snd (get_working_model_name E initial_world).

Definition after_search (E : Env) (q : string) : World :=
  log (EvSimilaritySearch q 3) (after_name E).

Definition after_stage (E : Env) (q : string) : World :=
  snd (answer_stage E flash_name (prompt_for q) (after_search E q)).

End Sample.

(** ** Worlds reached by logging, and whole sessions *)

Definition append_events (evs : list Event) (w : World) : World :=
  {| trace := (trace w ++ evs)%list;
     vector_store_cache := vector_store_cache w;
     model_name_cache := model_name_cache w;
     messages := messages w |}.

(** A process serving a session: one interaction after the other, each
    against the outside world of its moment. *)
Fixpoint serve (steps : list (Env * Inputs)) (w : World) : World :=
  match steps with
  | [] => w
  | (E, inp) :: rest => serve rest (snd (interaction E inp w))
  end.

(** Classes of log entries. *)
Definition setup_event (ev : Event) : bool :=
  match ev with
  | EvPathExists _ | EvListdir _ | EvLoadPdf _ | EvSplit _ | EvEmbed _
  | UiError _ => true
  | _ => false
  end.

Definition query_event (ev : Event) : bool :=
  match ev with
  | EvListModels | EvSimilaritySearch _ _ | EvGenerate _ _ | EvTavily _ _
  | UiInfo _ | UiStatusEmpty => true
  | _ => false
  end.

Definition page_event (ev : Event) : bool :=
  negb (is_embed ev) && negb (is_file_read ev).

Definition keys_present (E : Env) : bool :=
  truthy_opt (getenv E "GOOGLE_API_KEY") && truthy_opt (getenv E "TAVILY_API_KEY").

Definition is_pdf (file : string) : bool := endswith file ".pdf".

Definition not_chat_event (ev : Event) : bool :=
  match ev with
  | UiChatMessage _ | UiChatInput _ | UiChatOpen _ | UiWrite _ => false
  | _ => true
  end.

Definition is_load (ev : Event) : bool :=
  match ev with EvLoadPdf _ => true | _ => false end.

(** More sample worlds: what can be missing at start-up. *)
Module Startup.

Definition without_tavily_key (E : Env) : Env :=
  {| getenv := fun k => if String.eqb k "TAVILY_API_KEY" then None else getenv E k;
     path_exists := path_exists E;
     listdir := listdir E;
     pdf_load := pdf_load E;
     split_documents := split_documents E;
     from_documents := from_documents E;
     list_models := list_models E;
     generate_content := generate_content E;
     tavily_invoke := tavily_invoke E |}.

Definition without_folder (E : Env) : Env :=
  {| getenv := getenv E;
     path_exists := fun _ => false;
     listdir := fun _ => Failure "[Errno 2] No such file or directory: 'data'";
     pdf_load := pdf_load E;
     split_documents := split_documents E;
     from_documents := from_documents E;
     list_models := list_models E;
     generate_content := generate_content E;
     tavily_invoke := tavily_invoke E |}.

Definition env_no_key : Env := without_tavily_key Sample.env_web.

Definition env_no_folder : Env := without_folder Sample.env_web.

Definition env_no_pdf : Env :=
  Demo.env ["readme.txt"; "notes.PDF"] Demo.load_guide Demo.store_ok
           (Demo.gen_const "ok") Demo.tav_ok.

Definition clear : Inputs := {| clear_clicked := true; chat_input := None |}.

Definition submit (text : string) : Inputs :=
  {| clear_clicked := false; chat_input := Some text |}.

End Startup.

Definition top_events : list Event :=
  [ UiDecor "page_config"; UiDecor "style"; UiDecor "sidebar";
    UiButton "🔄 Clear Conversation";
    UiDecor "sidebar-caption"; UiDecor "header" ].

Definition top_events_until_button : list Event :=
  [ UiDecor "page_config"; UiDecor "style"; UiDecor "sidebar";
    UiButton "🔄 Clear Conversation" ].

Definition chat_box : Event := UiChatInput "Type your question here...".

(** The world after a run of the script that went through without a click
    or a submission: [v] is what [get_vector_store] returned and [evs] what
    its body logged. *)
Definition idle_world (w : World) (v : option VectorStore)
    (evs : list Event) : World :=
  let ms := match messages w with Some ms => ms | None => [greeting] end in
  {| trace :=
       (trace w ++ top_events ++ evs ++
        match v with
        | Some _ => map UiChatMessage ms ++ [chat_box]
        | None => []
        end)%list;
     vector_store_cache := Some v;
     model_name_cache := model_name_cache w;
     messages := match v with Some _ => Some ms | None => messages w end |}.

Definition folder_error : Event :=
  UiError "Folder 'data' not found! Please create a 'data' folder.".

Definition no_pdf_error : Event :=
  UiError "No PDF files found in 'data' folder!".

(** The index is built at most once, and not before the slot is filled. *)
Definition built_at_most_once (w : World) : Prop :=
  count is_embed (trace w) <= 1 /\
  (vector_store_cache w = None -> count is_embed (trace w) = 0).

(** ** Frames *)

(** [w'] is [w] with more entries logged, all of them in the class [P]. *)
Definition extends_by (P : Event -> bool) (w w' : World) : Prop :=
  exists evs, trace w' = (trace w ++ evs)%list /\ forallb P evs = true.

(** A computation that logs entries of the class [P] only and leaves the
    component [proj] of the world as it was. *)
Definition framed (P : Event -> bool) (B : Type) (proj : World -> B)
    (A : Type) (m : M A) : Prop :=
  forall w, extends_by P w (snd (m w)) /\ proj (snd (m w)) = proj w.

(** ** Further readings of the log and of the session *)

Definition is_generate (ev : Event) : bool :=
  match ev with EvGenerate _ _ => true | _ => false end.

Definition is_list_models (ev : Event) : bool :=
  match ev with EvListModels => true | _ => false end.

Definition is_search (ev : Event) : bool :=
  match ev with EvSimilaritySearch _ _ => true | _ => false end.

(** The test of [get_working_model_name] on one listed model. *)
Definition qualifies (m : ModelInfo) : bool :=
  existsb (String.eqb "generateContent") (supported_generation_methods m) &&
  (str_in "flash" (name m) || str_in "pro" (name m)).

(** What [get_working_model_name] falls back to. *)
Definition default_model (failure : option string) : string :=
  match failure with
  | None => "models/gemini-1.5-flash"
  | Some _ => "models/gemini-pro"
  end.

Definition role_ok (m : Message) : bool :=
  String.eqb (role m) "ai" || String.eqb (role m) "human".

(** Every stored message is the assistant's or the user's. *)
Definition history_ok (w : World) : Prop :=
  forall ms, messages w = Some ms -> forallb role_ok ms = true.

(** The models are listed at most once, and not before the slot of
    [get_working_model_name] is filled. *)
Definition listed_at_most_once (w : World) : Prop :=
  count is_list_models (trace w) <= 1 /\
  (model_name_cache w = None -> count is_list_models (trace w) = 0).

(** A computation that keeps an invariant of the world. *)
Definition preserves (I : World -> Prop) (A : Type) (m : M A) : Prop :=
  forall w, I w -> I (snd (m w)).

Definition human (text : string) : Message :=
  {| role := "human"; content := text |}.

Definition ai (text : string) : Message :=
  {| role := "ai"; content := text |}.

(** The stored history, the greeting standing for a session not yet
    seeded. *)
Definition history (w : World) : list Message :=
  match messages w with Some ms => ms | None => [greeting] end.

Module Extra.

Definition pro_old : ModelInfo :=
  {| name := "models/gemini-1.0-pro";
     supported_generation_methods := ["generateContent"] |}.

(** Listing breaks off after the embedding model. *)
Definition env_listing_breaks : Env :=
  {| getenv := getenv Sample.env_web;
     path_exists := path_exists Sample.env_web;
     listdir := listdir Sample.env_web;
     pdf_load := pdf_load Sample.env_web;
     split_documents := split_documents Sample.env_web;
     from_documents := from_documents Sample.env_web;
     list_models := fun _ => ([Demo.embedder], Some "429 quota exceeded");
     generate_content := generate_content Sample.env_web;
     tavily_invoke := tavily_invoke Sample.env_web |}.

(** The primary model is down, the secondary one answers: with the
    sentinel on the grounded prompt, with [text] after the web search. *)
Definition gen_secondary_only (text : string)
  : list Event -> string -> string -> ext string :=
  fun tr model _ =>
    if String.eqb model "models/gemini-1.0-pro"
    then (if existsb is_tavily tr then Success text else Success "NOT_FOUND")
    else Failure "404 model not found".

Definition env_secondary_only : Env :=
  Demo.env ["packages.pdf"] Demo.load_guide Demo.store_ok
           (gen_secondary_only Sample.roaming_answer) Demo.tav_ok.

(** Two PDFs, the first of which cannot be parsed. *)
Definition load_second_only (path : string) : ext (list Document) :=
  if String.eqb path "data/a.pdf" then Failure "EOF marker not found"
  else Success Demo.guide.

Definition env_first_pdf_broken : Env :=
  Demo.env ["a.pdf"; "notes.txt"; "b.pdf"] load_second_only Demo.store_ok
           (Demo.gen_const "ok") Demo.tav_ok.

Definition env_empty_key : Env :=
  {| getenv := fun k => if String.eqb k "GOOGLE_API_KEY" then Some ""
                        else getenv Sample.env_web k;
     path_exists := path_exists Sample.env_web;
     listdir := listdir Sample.env_web;
     pdf_load := pdf_load Sample.env_web;
     split_documents := split_documents Sample.env_web;
     from_documents := from_documents Sample.env_web;
     list_models := list_models Sample.env_web;
     generate_content := generate_content Sample.env_web;
     tavily_invoke := tavily_invoke Sample.env_web |}.

(** A process whose index could not be built at start-up. *)
Definition stuck : World :=
  {| trace := [];
     vector_store_cache := Some None;
     model_name_cache := None;
     messages := None |}.

End Extra.

(** The log entry of reading one file of the folder. *)
Definition load_event (file : string) : Event :=
  EvLoadPdf (path_join data_folder file).

(** What one interaction may add to the history after the question [u]
    was (or was not) submitted. *)
Definition turn_shape (inp : Inputs) (new : list Message) : Prop :=
  new = [] \/
  exists u, chat_input inp = Some u /\ truthy u = true /\
            (new = [human u] \/ exists r, new = [human u; ai r]).

Definition not_listing (ev : Event) : bool := negb (is_list_models ev).

(** The model name is settled as [n]. *)
Definition model_settled (n : string) (w : World) : Prop :=
  model_name_cache w = Some n.

Module Blank.

(** Scanned PDFs from which no page is extracted. *)
Definition env_blank_pdfs : Env :=
  Demo.env ["scan1.pdf"; "scan2.pdf"] (fun _ => Success []) Demo.store_ok
           (Demo.gen_const "ok") Demo.tav_ok.

End Blank.

(** The pages a file of the folder loads to, none when it does not load. *)
Definition loaded_pages (E : Env) (file : string) : list Document :=
  match pdf_load E (path_join data_folder file) with
  | Success pages => pages
  | Failure _ => []
  end.

(** What the index needs from the outside world: the folder exists and
    can be listed, every listed PDF loads, at least one page is read, and
    the pages can be split and indexed. *)
Definition index_buildable (E : Env) : Prop :=
  path_exists E data_folder = true /\
  exists files pages splits vs,
    listdir E data_folder = Success files /\
    (forall f, In f files -> is_pdf f = true ->
               pdf_load E (path_join data_folder f) = Success (pages f)) /\
    flat_map pages (filter is_pdf files) <> [] /\
    split_documents E (flat_map pages (filter is_pdf files)) = Success splits /\
    from_documents E splits = Success vs.

(** The later interactions of a process whose outside world stays [E]. *)
Definition later (E : Env) (inputs : list Inputs) (w : World) : World :=
  serve (map (fun inp => (E, inp)) inputs) w.

(** * Properties *)

(** ** Strings *)

Lemma prefix_app (p rest : string) : String.prefix p (p ++ rest) = true.
Proof.
  induction p as [|c p IH]; simpl.
  - destruct rest; reflexivity.
  - destruct (ascii_dec c c) as [_|ne]; [exact IH | congruence].
Qed.

Lemma prefix_split (p s : string) :
  String.prefix p s = true -> exists rest, s = p ++ rest.
Proof.
  revert s; induction p as [|c p IH]; intros s H.
  - exists s; reflexivity.
  - destruct s as [|d s]; simpl in H; [discriminate|].
    destruct (ascii_dec c d) as [->|_]; [|discriminate].
    destruct (IH s H) as [rest ->]. exists rest; reflexivity.
Qed.

Lemma app_assoc_str (a b c : string) : (a ++ b) ++ c = a ++ (b ++ c).
Proof. induction a as [|x a IH]; simpl; [reflexivity | now rewrite IH]. Qed.

Lemma str_in_nil (needle : string) :
  str_in needle "" = String.prefix needle "".
Proof. unfold str_in. apply orb_false_r. Qed.

Lemma str_in_cons (needle : string) (c : ascii) (hay : string) :
  str_in needle (String c hay) =
  String.prefix needle (String c hay) || str_in needle hay.
Proof. reflexivity. Qed.

(** [str_in] is Python's substring test: it holds exactly when the
    haystack splits around the needle. *)
Lemma str_in_spec (needle hay : string) :
  str_in needle hay = true <-> exists before after, hay = before ++ needle ++ after.
Proof.
  split.
  - induction hay as [|c hay IH]; intros H.
    + rewrite str_in_nil in H. apply prefix_split in H as [rest ->].
      exists "", rest; reflexivity.
    + rewrite str_in_cons in H. apply orb_true_iff in H as [H|H].
      * apply prefix_split in H as [rest ->]. exists "", rest; reflexivity.
      * destruct (IH H) as (b & a & ->). exists (String c b), a; reflexivity.
  - intros (before & after & ->).
    induction before as [|c before IH].
    + change ("" ++ needle ++ after) with (needle ++ after).
      destruct (needle ++ after) eqn:Hna.
      * rewrite str_in_nil, <- Hna. apply prefix_app.
      * rewrite str_in_cons, <- Hna, prefix_app. reflexivity.
    + change (String c before ++ needle ++ after)
        with (String c (before ++ needle ++ after)).
      rewrite str_in_cons, IH. apply orb_true_r.
Qed.

Lemma str_in_app_r (needle a b : string) :
  str_in needle b = true -> str_in needle (a ++ b) = true.
Proof.
  intros H. apply str_in_spec in H as (x & y & ->).
  apply str_in_spec. exists (a ++ x), y. now rewrite app_assoc_str.
Qed.

Lemma str_in_app_l (needle a b : string) :
  str_in needle a = true -> str_in needle (a ++ b) = true.
Proof.
  intros H. apply str_in_spec in H as (x & y & ->).
  apply str_in_spec. exists x, (y ++ b). now rewrite !app_assoc_str.
Qed.

Example str_in_sentinel_exact : str_in sentinel "NOT_FOUND" = true.
Proof. reflexivity. Qed.

Example str_in_sentinel_inside :
  str_in sentinel "Error code NOT_FOUND means the page is missing." = true.
Proof. reflexivity. Qed.

Example str_in_sentinel_absent : str_in sentinel "The 10GB package costs 1000 LKR." = false.
Proof. reflexivity. Qed.

Example endswith_pdf : endswith "guide.pdf" ".pdf" = true.
Proof. reflexivity. Qed.

Example endswith_upper : endswith "guide.PDF" ".pdf" = false.
Proof. reflexivity. Qed.

Example endswith_short : endswith "pdf" ".pdf" = false.
Proof. reflexivity. Qed.

Example join_three : join ", " ["a"; "b"; "c"] = "a, b, c".
Proof. reflexivity. Qed.

Lemma apology_has_no_sentinel : str_in sentinel apology = false.
Proof. reflexivity. Qed.

(** ** Reading the log *)

Lemma skipn_length_app {A} (a b : list A) : skipn (length a) (a ++ b)%list = b.
Proof. induction a; simpl; auto. Qed.

Lemma events_since_app (w w' : World) (evs : list Event) :
  trace w' = (trace w ++ evs)%list -> events_since w w' = evs.
Proof. unfold events_since. intros ->. apply skipn_length_app. Qed.

Lemma events_since_refl (w : World) : events_since w w = [].
Proof. apply events_since_app. now rewrite app_nil_r. Qed.

Lemma count_app p (a b : list Event) :
  count p (a ++ b)%list = count p a + count p b.
Proof. unfold count. now rewrite filter_app, length_app. Qed.

(** A log without an open bubble draws its bubbles whatever follows. *)
Lemma rendered_app (a b : list Event) :
  existsb is_open a = false ->
  rendered (a ++ b)%list = (rendered a ++ rendered b)%list.
Proof.
  induction a as [|ev a IH]; simpl; [reflexivity|].
  intros H. apply orb_false_iff in H as [Hev Ha].
  destruct ev; simpl in *; try discriminate; rewrite ?(IH Ha); reflexivity.
Qed.

(** Silent entries neither draw a bubble nor fill the open one. *)
Lemma silent_skip (quiet rest : list Event) :
  forallb silent quiet = true ->
  written (quiet ++ rest)%list = written rest /\
  rendered (quiet ++ rest)%list = rendered rest.
Proof.
  induction quiet as [|ev quiet IH]; simpl; [now split|].
  intros H. apply andb_true_iff in H as [Hev Hq].
  destruct (IH Hq) as [IH1 IH2].
  destruct ev; simpl in *; try discriminate; now split.
Qed.

(** A bubble opened, then silent entries, then what follows. *)
Lemma rendered_open (r : string) (quiet rest : list Event) :
  forallb silent quiet = true ->
  rendered (UiChatOpen r :: quiet ++ rest)%list
  = {| role := r; content := written rest |} :: rendered rest.
Proof.
  intros H. destruct (silent_skip quiet rest H) as [H1 H2].
  simpl. now rewrite H1, H2.
Qed.

Lemma no_open_app (a b : list Event) :
  existsb is_open a = false -> existsb is_open b = false ->
  existsb is_open (a ++ b)%list = false.
Proof. intros Ha Hb. now rewrite existsb_app, Ha, Hb. Qed.

Lemma no_open_messages (ms : list Message) :
  existsb is_open (map UiChatMessage ms) = false.
Proof. induction ms; simpl; auto. Qed.

Ltac no_open :=
  solve [ repeat first [ apply no_open_app | reflexivity | assumption
                       | apply no_open_messages ] ].

Lemma no_open_class (P : Event -> bool) (evs : list Event) :
  (forall ev, P ev = true -> is_open ev = false) ->
  forallb P evs = true -> existsb is_open evs = false.
Proof.
  intros H. induction evs as [|ev evs IH]; simpl; [reflexivity|].
  intros Hp. apply andb_true_iff in Hp as [H1 H2].
  now rewrite (H _ H1), IH.
Qed.

(** ** Unfolding the monad *)

Ltac unfold_monad :=
  unfold try_except_Exception, try_except, cache_resource, bind, call, emit,
         ret, raise, lift_ext in *.

Ltac unfold_answer :=
  unfold generate_answer, answer_stage, web_fallback, invoke_model,
         get_working_model_name, get_working_model_name_body in *;
  unfold_monad.

Lemma trace_log ev w : trace (log ev w) = (trace w ++ [ev])%list.
Proof. reflexivity. Qed.

(** ** The model name *)

Lemma get_working_model_name_returns (E : Env) (w : World) :
  exists n w', get_working_model_name E w = (Ret n, w') /\
    messages w' = messages w /\
    vector_store_cache w' = vector_store_cache w /\
    (trace w' = trace w \/ trace w' = (trace w ++ [EvListModels])%list).
Proof.
  unfold_answer.
  destruct (model_name_cache w) eqn:Hc.
  - eauto 10.
  - destruct (list_models E (trace w)) as [ys f].
    destruct (pick_model ys); [|destruct f]; simpl; eauto 10.
Qed.

Lemma get_working_model_name_cached (E : Env) (w : World) (n : string) :
  model_name_cache w = Some n -> get_working_model_name E w = (Ret n, w).
Proof. unfold_answer. now intros ->. Qed.

(** ** generate_answer: failures *)

(** [answer_stage], [web_fallback] and [generate_answer] as case analyses
    on what the services answer. *)
Lemma answer_stage_eq (E : Env) m p w :
  answer_stage E m p w =
  let w1 := log (EvGenerate m p) w in
  let w2 := log (EvGenerate secondary_model p) w1 in
  match generate_content E (trace w) m p with
  | Success answer => (Ret (inr (answer, m)), w1)
  | Failure msg1 =>
      match generate_content E (trace w1) secondary_model p with
      | Success answer => (Ret (inr (answer, secondary_model)), w2)
      | Failure _ => (Ret (inl ("System Error: " ++ msg1)), w2)
      end
  end.
Proof.
  unfold answer_stage, invoke_model. unfold_monad.
  destruct (generate_content E (trace w) m p); cbn [lift_ext is_Exception].
  - reflexivity.
  - destruct (generate_content E (trace (log (EvGenerate m p) w))
                secondary_model p); reflexivity.
Qed.

Lemma web_fallback_eq (E : Env) q model w :
  web_fallback E q model w =
  let w1 := log checking_online w in
  let w2 := log (EvTavily q 3) w1 in
  match tavily_invoke E (trace w1) q 3 with
  | Failure _ => (Ret apology, w2)
  | Success web_results =>
      let w3 := log (EvGenerate model (web_prompt web_results q)) w2 in
      match generate_content E (trace w2) model (web_prompt web_results q) with
      | Failure _ => (Ret apology, w3)
      | Success final_answer => (Ret final_answer, log UiStatusEmpty w3)
      end
  end.
Proof.
  unfold web_fallback, invoke_model. unfold_monad.
  cbv zeta.
  destruct (tavily_invoke E _ q 3) as [wr|]; cbn [lift_ext is_Exception].
  - destruct (generate_content E
                (trace (log (EvTavily q 3) (log checking_online w)))
                model (web_prompt wr q)); reflexivity.
  - reflexivity.
Qed.

Lemma generate_answer_eq (E : Env) q vs h w model_name w1 :
  get_working_model_name E w = (Ret model_name, w1) ->
  generate_answer E q vs h w =
  let w2 := log (EvSimilaritySearch q 3) w1 in
  match similarity_search vs q 3 with
  | Failure msg => (Raise (PyException msg), w2)
  | Success docs =>
      match answer_stage E model_name
              (pdf_prompt (join (nl ++ nl) (map page_content docs)) q) w2 with
      | (Ret (inl system_error), w3) => (Ret system_error, w3)
      | (Ret (inr (answer, model)), w3) =>
          if str_in sentinel answer
          then web_fallback E q model w3
          else (Ret answer, w3)
      | (Raise e, w3) => (Raise e, w3)
      end
  end.
Proof.
  intros Hn. unfold generate_answer, bind at 1. rewrite Hn.
  unfold bind at 1, call at 1. cbv zeta.
  destruct (similarity_search vs q 3) as [docs|msg]; cbn [lift_ext].
  - unfold bind.
    destruct (answer_stage E model_name _ _) as [[[err|[answer model]]|e] w3];
      try reflexivity.
    destruct (str_in sentinel answer); reflexivity.
  - reflexivity.
Qed.

Lemma answer_stage_returns (E : Env) m p w :
  exists r, fst (answer_stage E m p w) = Ret r.
Proof.
  unfold answer_stage, invoke_model. unfold_monad.
  destruct (generate_content E (trace w) m p); simpl; eauto.
  destruct (generate_content E _ secondary_model p); simpl; eauto.
Qed.

Lemma web_fallback_returns (E : Env) q model w :
  exists s, fst (web_fallback E q model w) = Ret s.
Proof.
  unfold web_fallback, invoke_model. unfold_monad. simpl.
  destruct (tavily_invoke E _ q 3); simpl; eauto.
  destruct (generate_content E _ model _); simpl; eauto.
Qed.

(** The retrieval call sits outside every [try]: when it succeeds the
    function always returns a string. *)
Lemma generate_answer_returns (E : Env) q vs h w docs :
  similarity_search vs q 3 = Success docs ->
  exists s, fst (generate_answer E q vs h w) = Ret s.
Proof.
  intros Hs.
  destruct (get_working_model_name_returns E w) as (n & w1 & Hn & _).
  unfold generate_answer, bind at 1. rewrite Hn.
  unfold bind at 1, call at 1. rewrite Hs; simpl lift_ext; cbv iota beta.
  unfold bind at 1.
  destruct (answer_stage_returns E n
              (pdf_prompt (join (nl ++ nl) (map page_content docs)) q)
              (log (EvSimilaritySearch q 3) w1)) as [r Hr].
  destruct (answer_stage E n _ _) as [r' w3]. simpl in Hr. subst r'.
  destruct r as [err | [answer model]]; [eexists; reflexivity|].
  destruct (str_in sentinel answer); [|eexists; reflexivity].
  apply web_fallback_returns.
Qed.

(** C3: a failure of the retrieval call is not caught inside
    [generate_answer]: with a vector store whose search raises, the
    exception leaves the function, whatever the services would answer. *)
Theorem retrieval_failure_escapes (E : Env) (q msg : string)
    (h : list Message) (w : World) :
  fst (generate_answer E q {| similarity_search := fun _ _ => Failure msg |} h w)
  = Raise (PyException msg).
Proof.
  destruct (get_working_model_name_returns E w) as (n & w1 & Hn & _).
  unfold generate_answer, bind at 1. rewrite Hn.
  reflexivity.
Qed.

(** C4: when the primary invocation fails, the grounded prompt is sent
    exactly once more, to the secondary model; when that fails too,
    [generate_answer] returns normally with "System Error: " followed by the
    first failure's message, and nothing else is called. *)
Theorem primary_failure_retries_once (E : Env) q vs h w
    model_name w1 docs msg1 :
  get_working_model_name E w = (Ret model_name, w1) ->
  similarity_search vs q 3 = Success docs ->
  let prompt := pdf_prompt (join (nl ++ nl) (map page_content docs)) q in
  let w2 := log (EvSimilaritySearch q 3) w1 in
  let w3 := log (EvGenerate model_name prompt) w2 in
  let w4 := log (EvGenerate secondary_model prompt) w3 in
  generate_content E (trace w2) model_name prompt = Failure msg1 ->
  match generate_content E (trace w3) secondary_model prompt with
  | Success answer =>
      answer_stage E model_name prompt w2
      = (Ret (inr (answer, secondary_model)), w4)
  | Failure _ =>
      answer_stage E model_name prompt w2
      = (Ret (inl ("System Error: " ++ msg1)), w4) /\
      generate_answer E q vs h w = (Ret ("System Error: " ++ msg1), w4)
  end.
Proof.
  intros Hn Hs prompt w2 w3 w4 H1.
  assert (Hstage : forall r,
            generate_content E (trace w3) secondary_model prompt = r ->
            answer_stage E model_name prompt w2 =
            (match r with
             | Success answer => Ret (inr (answer, secondary_model))
             | Failure _ => Ret (inl ("System Error: " ++ msg1))
             end, w4)).
  { intros r Hr. unfold answer_stage, invoke_model. unfold_monad.
    rewrite H1. cbn [lift_ext is_Exception].
    change (log (EvGenerate model_name prompt) w2) with w3.
    rewrite Hr. destruct r; reflexivity. }
  destruct (generate_content E (trace w3) secondary_model prompt) eqn:H2.
  - exact (Hstage _ eq_refl).
  - split; [exact (Hstage _ eq_refl)|].
    unfold generate_answer, bind at 1. rewrite Hn.
    unfold bind at 1, call at 1. rewrite Hs. simpl lift_ext. cbv iota beta.
    fold w2. fold prompt. unfold bind at 1.
    rewrite (Hstage _ eq_refl). reflexivity.
Qed.

(** C5: on the fallback path a failure of the web search, or of the model
    invocation after it, yields the fixed apology whatever the failure's
    message was, and nothing is called after the failing call. *)
Theorem fallback_failure_apologises (E : Env) q model w :
  let w1 := log checking_online w in
  let w2 := log (EvTavily q 3) w1 in
  (exists msg, tavily_invoke E (trace w1) q 3 = Failure msg) \/
  (exists web_results msg,
      tavily_invoke E (trace w1) q 3 = Success web_results /\
      generate_content E (trace w2) model (web_prompt web_results q)
      = Failure msg) ->
  fst (web_fallback E q model w) = Ret apology /\
  count is_tavily (events_since w (snd (web_fallback E q model w))) = 1 /\
  (events_since w (snd (web_fallback E q model w))
     = [checking_online; EvTavily q 3] \/
   exists web_results,
     events_since w (snd (web_fallback E q model w))
     = [checking_online; EvTavily q 3;
        EvGenerate model (web_prompt web_results q)]).
Proof.
  intros w1 w2 H.
  rewrite web_fallback_eq. cbv zeta. fold w1. fold w2.
  destruct H as [[msg Ht] | (wr & msg & Ht & Hg)]; rewrite Ht.
  - split; [reflexivity|]. cbn [snd].
    rewrite (events_since_app w w2 [checking_online; EvTavily q 3]).
    + split; [reflexivity | now left].
    + simpl. now rewrite <- app_assoc.
  - rewrite Hg. split; [reflexivity|]. cbn [snd].
    rewrite (events_since_app w
               (log (EvGenerate model (web_prompt wr q)) w2)
               [checking_online; EvTavily q 3;
                EvGenerate model (web_prompt wr q)]).
    + split; [reflexivity | right; now exists wr].
    + simpl. now rewrite <- !app_assoc.
Qed.

(** ** generate_answer: what is logged *)

Lemma answer_stage_trace (E : Env) m p w :
  exists evs,
    trace (snd (answer_stage E m p w)) = (trace w ++ evs)%list /\
    count is_tavily evs = 0 /\
    messages (snd (answer_stage E m p w)) = messages w /\
    vector_store_cache (snd (answer_stage E m p w)) = vector_store_cache w.
Proof.
  rewrite answer_stage_eq. cbv zeta.
  destruct (generate_content E (trace w) m p).
  - exists [EvGenerate m p]. repeat split.
  - destruct (generate_content E _ secondary_model p);
      exists [EvGenerate m p; EvGenerate secondary_model p];
      (split; [simpl; now rewrite <- app_assoc | repeat split]).
Qed.

Lemma web_fallback_trace (E : Env) q model w :
  exists evs,
    trace (snd (web_fallback E q model w)) = (trace w ++ evs)%list /\
    count is_tavily evs = 1 /\
    messages (snd (web_fallback E q model w)) = messages w /\
    vector_store_cache (snd (web_fallback E q model w)) = vector_store_cache w.
Proof.
  rewrite web_fallback_eq. cbv zeta.
  destruct (tavily_invoke E _ q 3) as [wr|].
  - destruct (generate_content E _ model (web_prompt wr q)).
    + exists [checking_online; EvTavily q 3;
              EvGenerate model (web_prompt wr q); UiStatusEmpty].
      split; [simpl; now rewrite <- !app_assoc | repeat split].
    + exists [checking_online; EvTavily q 3;
              EvGenerate model (web_prompt wr q)].
      split; [simpl; now rewrite <- !app_assoc | repeat split].
  - exists [checking_online; EvTavily q 3].
    split; [simpl; now rewrite <- !app_assoc | repeat split].
Qed.

(** ** generate_answer: the sentinel *)

(** C1, as the code has it: when the first answer holds the sentinel, the
    web search is called exactly once and the value returned is the
    fallback's (the web-grounded answer when both calls succeed, the
    apology otherwise), which is not searched for the sentinel again; the
    apology holds no sentinel.  When the first answer holds no sentinel it
    is returned as it is and no web search is made. *)
Theorem sentinel_routes_to_fallback (E : Env) q vs h w
    model_name w1 docs answer model w3 :
  get_working_model_name E w = (Ret model_name, w1) ->
  similarity_search vs q 3 = Success docs ->
  answer_stage E model_name
    (pdf_prompt (join (nl ++ nl) (map page_content docs)) q)
    (log (EvSimilaritySearch q 3) w1)
  = (Ret (inr (answer, model)), w3) ->
  let out := generate_answer E q vs h w in
  let w4 := log checking_online w3 in
  let w5 := log (EvTavily q 3) w4 in
  if str_in sentinel answer then
    count is_tavily (events_since w (snd out)) = 1 /\
    fst out =
      Ret match tavily_invoke E (trace w4) q 3 with
          | Failure _ => apology
          | Success web_results =>
              match generate_content E (trace w5) model
                      (web_prompt web_results q) with
              | Failure _ => apology
              | Success final_answer => final_answer
              end
          end /\
    str_in sentinel apology = false
  else
    out = (Ret answer, w3) /\
    count is_tavily (events_since w (snd out)) = 0.
Proof.
  intros Hn Hs Hst out w4 w5. subst out.
  rewrite (generate_answer_eq E q vs h w Hn). cbv zeta.
  rewrite Hs, Hst.
  destruct (get_working_model_name_returns E w) as (n' & w1' & Hn' & _ & _ & Htr1).
  rewrite Hn in Hn'. injection Hn' as <- <-.
  destruct (answer_stage_trace E model_name
              (pdf_prompt (join (nl ++ nl) (map page_content docs)) q)
              (log (EvSimilaritySearch q 3) w1)) as (evs & Htr3 & Hc3 & _).
  rewrite Hst in Htr3. cbn [snd] in Htr3. rewrite trace_log in Htr3.
  assert (Hpre : exists pre, trace w3 = (trace w ++ pre)%list /\
                             count is_tavily pre = 0).
  { destruct Htr1 as [H1|H1]; rewrite H1 in Htr3.
    - exists ([EvSimilaritySearch q 3] ++ evs)%list.
      rewrite Htr3, <- app_assoc. split; [reflexivity|].
      now rewrite count_app, Hc3.
    - exists ([EvListModels; EvSimilaritySearch q 3] ++ evs)%list.
      rewrite Htr3, <- !app_assoc. split; [reflexivity|].
      now rewrite count_app, Hc3. }
  destruct Hpre as (pre & Hpre & Hcpre).
  destruct (str_in sentinel answer).
  - destruct (web_fallback_trace E q model w3) as (evs' & Htr & Hc & _).
    split; [|split; [|reflexivity]].
    + rewrite (events_since_app w _ (pre ++ evs')%list).
      * now rewrite count_app, Hcpre, Hc.
      * now rewrite Htr, Hpre, app_assoc.
    + rewrite web_fallback_eq. cbv zeta. fold w4. fold w5.
      destruct (tavily_invoke E (trace w4) q 3) as [wr|]; [|reflexivity].
      destruct (generate_content E (trace w5) model (web_prompt wr q));
        reflexivity.
  - split; [reflexivity|]. cbn [snd].
    now rewrite (events_since_app w w3 pre Hpre).
Qed.

(** ** generate_answer: the history argument *)

Lemma get_working_model_name_with_messages (E : Env) ms w :
  get_working_model_name E (with_messages ms w) =
  (fst (get_working_model_name E w),
   with_messages ms (snd (get_working_model_name E w))).
Proof.
  unfold_answer. cbn [model_name_cache with_messages trace].
  destruct (model_name_cache w); [reflexivity|].
  destruct (list_models E (trace w)) as [ys f].
  destruct (pick_model ys); [|destruct f]; reflexivity.
Qed.

Lemma answer_stage_with_messages (E : Env) m p ms w :
  answer_stage E m p (with_messages ms w) =
  (fst (answer_stage E m p w), with_messages ms (snd (answer_stage E m p w))).
Proof.
  rewrite !answer_stage_eq. cbv zeta. cbn [with_messages trace log].
  destruct (generate_content E (trace w) m p); [reflexivity|].
  destruct (generate_content E _ secondary_model p); reflexivity.
Qed.

Lemma web_fallback_with_messages (E : Env) q model ms w :
  web_fallback E q model (with_messages ms w) =
  (fst (web_fallback E q model w),
   with_messages ms (snd (web_fallback E q model w))).
Proof.
  rewrite !web_fallback_eq. cbv zeta. cbn [with_messages trace log].
  destruct (tavily_invoke E _ q 3) as [wr|]; [|reflexivity].
  destruct (generate_content E _ model (web_prompt wr q)); reflexivity.
Qed.

Lemma generate_answer_with_messages (E : Env) q vs h1 h2 ms w :
  generate_answer E q vs h1 (with_messages ms w) =
  (fst (generate_answer E q vs h2 w),
   with_messages ms (snd (generate_answer E q vs h2 w))).
Proof.
  destruct (get_working_model_name_returns E w) as (n & w1 & Hn & _).
  assert (Hn' : get_working_model_name E (with_messages ms w)
                = (Ret n, with_messages ms w1)).
  { now rewrite get_working_model_name_with_messages, Hn. }
  rewrite (generate_answer_eq E q vs h1 _ Hn'),
          (generate_answer_eq E q vs h2 _ Hn). cbv zeta.
  destruct (similarity_search vs q 3) as [docs|msg]; [|reflexivity].
  change (log (EvSimilaritySearch q 3) (with_messages ms w1))
    with (with_messages ms (log (EvSimilaritySearch q 3) w1)).
  rewrite answer_stage_with_messages.
  destruct (answer_stage E n _ (log (EvSimilaritySearch q 3) w1))
    as [[[err|[answer model]]|e] w3]; cbn [fst snd]; try reflexivity.
  destruct (str_in sentinel answer); [|reflexivity].
  apply web_fallback_with_messages.
Qed.

(** C10: two calls that differ in the history argument and in the session
    store, and agree on everything else, return the same value and log the
    same calls; neither touches its session store. *)
Theorem generate_answer_ignores_history (E : Env) q vs
    (h1 h2 : list Message) (ms1 ms2 : option (list Message)) (w : World) :
  let out1 := generate_answer E q vs h1 (with_messages ms1 w) in
  let out2 := generate_answer E q vs h2 (with_messages ms2 w) in
  fst out1 = fst out2 /\
  trace (snd out1) = trace (snd out2) /\
  model_name_cache (snd out1) = model_name_cache (snd out2) /\
  messages (snd out1) = ms1 /\
  messages (snd out2) = ms2.
Proof.
  cbv zeta.
  rewrite (generate_answer_with_messages E q vs h1 h1 ms1 w),
          (generate_answer_with_messages E q vs h2 h1 ms2 w).
  repeat split.
Qed.

(** ** Sample runs of generate_answer *)

Lemma sentinel_routes_to_fallback_witness :
  count is_tavily
    (events_since initial_world
       (snd (generate_answer Sample.env_web Sample.roaming_question
               Demo.store_ok [] initial_world))) = 1 /\
  fst (generate_answer Sample.env_web Sample.roaming_question
         Demo.store_ok [] initial_world)
  = Ret Sample.roaming_answer.
Proof.
  generalize
    (@sentinel_routes_to_fallback Sample.env_web Sample.roaming_question
       Demo.store_ok [] initial_world Sample.flash_name
       (Sample.after_name Sample.env_web)
       (Sample.docs_for Sample.roaming_question)
       "NOT_FOUND" Sample.flash_name
       (Sample.after_stage Sample.env_web Sample.roaming_question)
       eq_refl eq_refl eq_refl).
  vm_compute. intros (H1 & H2 & _). split; assumption.
Defined.

(** C1 as stated fails: the model may answer the web prompt with the
    sentinel too, and that answer is returned to the user. *)
Lemma sentinel_answer_returned :
  similarity_search Demo.store_ok Sample.roaming_question 3
  = Success (Sample.docs_for Sample.roaming_question) /\
  fst (answer_stage Sample.env_stubborn Sample.flash_name
         (Sample.prompt_for Sample.roaming_question)
         (Sample.after_search Sample.env_stubborn Sample.roaming_question))
  = Ret (inr ("NOT_FOUND", Sample.flash_name)) /\
  str_in sentinel "NOT_FOUND" = true /\
  fst (generate_answer Sample.env_stubborn Sample.roaming_question
         Demo.store_ok [] initial_world)
  = Ret "NOT_FOUND".
Proof. vm_compute. repeat split. Qed.

Lemma retrieval_failure_escapes_sample :
  fst (generate_answer Sample.env_search_down "What is the price of the 10GB package?"
         Demo.store_down [] initial_world)
  = Raise (PyException "embedding backend unavailable").
Proof. vm_compute. reflexivity. Qed.

Lemma primary_failure_retries_once_witness :
  generate_answer Sample.env_model_down Sample.roaming_question
    Demo.store_ok [] initial_world
  = (Ret "System Error: 503 service unavailable",
     log (EvGenerate secondary_model (Sample.prompt_for Sample.roaming_question))
       (log (EvGenerate Sample.flash_name (Sample.prompt_for Sample.roaming_question))
          (Sample.after_search Sample.env_model_down Sample.roaming_question))).
Proof.
  exact (proj2
    (@primary_failure_retries_once Sample.env_model_down
       Sample.roaming_question Demo.store_ok [] initial_world
       Sample.flash_name (Sample.after_name Sample.env_model_down)
       (Sample.docs_for Sample.roaming_question)
       "503 service unavailable" eq_refl eq_refl eq_refl)).
Defined.

Lemma fallback_failure_apologises_witness :
  fst (web_fallback Sample.env_web_down Sample.roaming_question
         Sample.flash_name initial_world)
  = Ret "I couldn't find that information in our guides or online.".
Proof.
  apply (@fallback_failure_apologises Sample.env_web_down
           Sample.roaming_question Sample.flash_name initial_world).
  left. exists "401 unauthorized". reflexivity.
Defined.

(** ** The embedding index: order of the search results *)

Section SortBy.

Variable A : Type.
Variable key : A -> Z.

Local Abbreviation le_key := (Faiss.le_by key).

Lemma insert_by_perm (x : A) (l : list A) :
  Permutation (Faiss.insert_by key x l) (x :: l).
Proof.
  induction l as [|y l IH]; simpl.
  - apply Permutation_refl.
  - destruct (Z.leb (key x) (key y)).
    + apply Permutation_refl.
    + eapply perm_trans; [apply perm_skip, IH | apply perm_swap].
Qed.

Lemma sort_by_perm (l : list A) : Permutation (Faiss.sort_by key l) l.
Proof.
  induction l as [|x l IH]; simpl.
  - apply perm_nil.
  - eapply perm_trans; [apply insert_by_perm | apply perm_skip, IH].
Qed.

Lemma insert_by_sorted (x : A) (l : list A) :
  StronglySorted le_key l -> StronglySorted le_key (Faiss.insert_by key x l).
Proof.
  induction 1 as [|y l Hs IH Hall]; simpl.
  - constructor; constructor.
  - destruct (Z.leb (key x) (key y)) eqn:Hxy.
    + apply Z.leb_le in Hxy. constructor.
      * constructor; assumption.
      * constructor; [exact Hxy|].
        eapply Forall_impl; [|exact Hall].
        intros z Hz. unfold Faiss.le_by in *. lia.
    + apply Z.leb_gt in Hxy. constructor; [exact IH|].
      apply (Permutation_Forall (Permutation_sym (insert_by_perm x l))).
      constructor; [unfold Faiss.le_by; lia | exact Hall].
Qed.

Lemma sort_by_sorted (l : list A) : StronglySorted le_key (Faiss.sort_by key l).
Proof.
  induction l as [|x l IH]; simpl.
  - constructor.
  - apply insert_by_sorted, IH.
Qed.

Lemma firstn_sorted (k : nat) (l : list A) :
  StronglySorted le_key l -> StronglySorted le_key (firstn k l).
Proof.
  intros Hs; revert k. induction Hs as [|x l Hs IH Hall]; intros [|k]; simpl;
    try constructor.
  - apply IH.
  - apply Forall_forall. intros y Hy.
    apply (proj1 (Forall_forall _ _) Hall).
    rewrite <- (firstn_skipn k l). apply in_or_app; now left.
Qed.

Lemma sorted_app_le (a b : list A) :
  StronglySorted le_key (a ++ b)%list ->
  forall x y, In x a -> In y b -> le_key x y.
Proof.
  induction a as [|z a IH]; simpl; intros Hs x y Hx Hy; [contradiction|].
  inversion Hs as [|? ? Hs' Hall]; subst.
  destruct Hx as [->|Hx].
  - apply (proj1 (Forall_forall _ _) Hall). apply in_or_app; now right.
  - now apply IH.
Qed.

End SortBy.

Lemma search_length (ix : Faiss.Index) q k :
  length (Faiss.search ix q k) = Nat.min k (length (Faiss.chunks ix)).
Proof.
  unfold Faiss.search. rewrite length_firstn.
  now rewrite (Permutation_length (sort_by_perm _ _)).
Qed.

Lemma search_sorted (ix : Faiss.Index) q k :
  StronglySorted (Faiss.le_by (Faiss.distance ix q)) (Faiss.search ix q k).
Proof. unfold Faiss.search. apply firstn_sorted, sort_by_sorted. Qed.

(** The results are the nearest chunks: what is left out is no nearer than
    anything returned. *)
Lemma search_nearest (ix : Faiss.Index) q k :
  exists rest,
    Permutation (Faiss.search ix q k ++ rest)%list (Faiss.chunks ix) /\
    forall d d', In d (Faiss.search ix q k) -> In d' rest ->
                 (Faiss.distance ix q d <= Faiss.distance ix q d')%Z.
Proof.
  exists (skipn k (Faiss.sort_by (Faiss.distance ix q) (Faiss.chunks ix))).
  unfold Faiss.search. split.
  - rewrite firstn_skipn. apply sort_by_perm.
  - apply (@sorted_app_le _ (Faiss.distance ix q)).
    rewrite firstn_skipn. apply sort_by_sorted.
Qed.

(** ** The grounded prompt holds every retrieved chunk *)

Lemma str_in_refl (s : string) : str_in s s = true.
Proof. apply str_in_spec. exists "", "". simpl. induction s; simpl; congruence. Qed.

Lemma str_in_join (sep x : string) (parts : list string) :
  In x parts -> str_in x (join sep parts) = true.
Proof.
  induction parts as [|p rest IH]; [contradiction|].
  intros [->|Hin].
  - destruct rest; [apply str_in_refl|].
    change (str_in x (x ++ sep ++ join sep (s :: rest)) = true).
    apply str_in_app_l, str_in_refl.
  - destruct rest as [|r rest]; [contradiction|].
    change (str_in x (p ++ sep ++ join sep (r :: rest)) = true).
    apply str_in_app_r, str_in_app_r, IH, Hin.
Qed.

Lemma str_in_pdf_prompt (x context_text query : string) :
  str_in x context_text = true ->
  str_in x (pdf_prompt context_text query) = true.
Proof.
  intros H. unfold pdf_prompt.
  do 8 apply str_in_app_r. apply str_in_app_l, H.
Qed.

Lemma generate_answer_trace (E : Env) q vs h w docs :
  similarity_search vs q 3 = Success docs ->
  exists model_name pre evs,
    (pre = [] \/ pre = [EvListModels]) /\
    events_since w (snd (generate_answer E q vs h w))
    = (pre ++ [EvSimilaritySearch q 3;
               EvGenerate model_name
                 (pdf_prompt (join (nl ++ nl) (map page_content docs)) q)]
           ++ evs)%list.
Proof.
  intros Hs.
  destruct (get_working_model_name_returns E w)
    as (n & w1 & Hn & _ & _ & Htr1).
  rewrite (generate_answer_eq E q vs h w Hn). cbv zeta. rewrite Hs.
  set (p := pdf_prompt (join (nl ++ nl) (map page_content docs)) q).
  set (w2 := log (EvSimilaritySearch q 3) w1).
  assert (Hpre : exists pre, (pre = [] \/ pre = [EvListModels]) /\
                   trace w2 = (trace w ++ pre ++ [EvSimilaritySearch q 3])%list).
  { destruct Htr1 as [H|H].
    - exists []. split; [now left|]. unfold w2. now rewrite trace_log, H.
    - exists [EvListModels]. split; [now right|].
      unfold w2. now rewrite trace_log, H, <- app_assoc. }
  destruct Hpre as (pre & Hpre & Htr2).
  assert (Hstage : exists evs,
            trace (snd (answer_stage E n p w2))
            = (trace w2 ++ EvGenerate n p :: evs)%list).
  { rewrite answer_stage_eq. cbv zeta.
    destruct (generate_content E (trace w2) n p).
    - now exists [].
    - destruct (generate_content E _ secondary_model p);
        exists [EvGenerate secondary_model p]; simpl;
        now rewrite <- app_assoc. }
  destruct Hstage as (evs & Htr3).
  destruct (answer_stage E n p w2) as [[[err|[answer model]]|e] w3];
    cbn [snd] in Htr3.
  1,3: exists n, pre, evs; split; [exact Hpre|]; cbn [snd];
       apply events_since_app; rewrite Htr3, Htr2, <- !app_assoc;
       reflexivity.
  destruct (str_in sentinel answer).
  - destruct (web_fallback_trace E q model w3) as (evs' & Htr4 & _).
    exists n, pre, (evs ++ evs')%list. split; [exact Hpre|].
    apply events_since_app. rewrite Htr4, Htr3, Htr2, <- !app_assoc.
    reflexivity.
  - exists n, pre, evs. split; [exact Hpre|]. cbn [snd].
    apply events_since_app. rewrite Htr3, Htr2, <- !app_assoc. reflexivity.
Qed.

(** C9: [generate_answer] asks the index for k = 3 chunks; the search
    yields at most three, the nearest ones, in order of non-decreasing
    distance; and the prompt sent to the model is the grounded prompt over
    the texts of all of them. *)
Theorem retrieval_feeds_prompt (E : Env) (ix : Faiss.Index) q h w :
  let docs := Faiss.search ix q 3 in
  let prompt := pdf_prompt (join (nl ++ nl) (map page_content docs)) q in
  let out := generate_answer E q (Faiss.store ix) h w in
  similarity_search (Faiss.store ix) q 3 = Success docs /\
  length docs = Nat.min 3 (length (Faiss.chunks ix)) /\
  length docs <= 3 /\
  StronglySorted (Faiss.le_by (Faiss.distance ix q)) docs /\
  (exists rest,
      Permutation (docs ++ rest)%list (Faiss.chunks ix) /\
      forall d d', In d docs -> In d' rest ->
                   (Faiss.distance ix q d <= Faiss.distance ix q d')%Z) /\
  (exists model_name pre evs,
      (pre = [] \/ pre = [EvListModels]) /\
      events_since w (snd out)
      = (pre ++ [EvSimilaritySearch q 3; EvGenerate model_name prompt]
             ++ evs)%list) /\
  Forall (fun d => str_in (page_content d) prompt = true) docs.
Proof.
  cbv zeta. split; [reflexivity|].
  split; [apply search_length|].
  split; [rewrite search_length; apply Nat.le_min_l|].
  split; [apply search_sorted|].
  split; [apply search_nearest|].
  split; [now apply generate_answer_trace|].
  apply Forall_forall. intros d Hd.
  apply str_in_pdf_prompt, str_in_join, in_map, Hd.
Qed.

Example search_sample :
  map page_content (Faiss.search Demo.index "What does the 10GB pack cost?" 3)
  = [ "Fibre plans start at 2500 LKR";
      "Hotline 1717 is open all day";
      "10GB package costs 1000 LKR" ].
Proof. vm_compute. reflexivity. Qed.

(** ** Frames: what a computation logs and what it leaves alone *)

Section Frames.

Variable P : Event -> bool.
Variable B : Type.
Variable proj : World -> B.
Hypothesis proj_log : forall ev w, proj (log ev w) = proj w.

Local Abbreviation extends_by := (extends_by P).
Local Abbreviation framed := (framed P proj).

Lemma extends_by_refl w : extends_by w w.
Proof. exists []. now rewrite app_nil_r. Qed.

Lemma extends_by_trans w1 w2 w3 :
  extends_by w1 w2 -> extends_by w2 w3 -> extends_by w1 w3.
Proof.
  intros (e1 & H1 & P1) (e2 & H2 & P2). exists (e1 ++ e2)%list.
  rewrite H2, H1, app_assoc, forallb_app, P1, P2. now split.
Qed.

Lemma extends_by_log ev w : P ev = true -> extends_by w (log ev w).
Proof. intros H. exists [ev]. simpl. now rewrite H. Qed.

Lemma framed_ret {A} (a : A) : framed (ret a).
Proof. intros w. split; [apply extends_by_refl | reflexivity]. Qed.

Lemma framed_raise {A} (e : exn) : framed (@raise A e).
Proof. intros w. split; [apply extends_by_refl | reflexivity]. Qed.

Lemma framed_emit ev : P ev = true -> framed (emit ev).
Proof. intros H w. split; [now apply extends_by_log | apply proj_log]. Qed.

Lemma framed_call {A} ev (oracle : list Event -> ext A) :
  P ev = true -> framed (call ev oracle).
Proof. intros H w. split; [now apply extends_by_log | apply proj_log]. Qed.

Lemma framed_bind {A C} (m : M A) (k : A -> M C) :
  framed m -> (forall a, framed (k a)) -> framed (bind m k).
Proof.
  intros Hm Hk w. unfold bind. specialize (Hm w).
  destruct (m w) as [[a|e] w1]; cbn [snd] in *; [|exact Hm].
  destruct Hm as [He Hp]. specialize (Hk a w1). destruct Hk as [He' Hp'].
  split; [eapply extends_by_trans; eassumption | congruence].
Qed.

Lemma framed_try_except_Exception {A} (body : M A) (handler : exn -> M A) :
  framed body -> (forall e, framed (handler e)) ->
  framed (try_except_Exception body handler).
Proof.
  intros Hb Hh w. unfold try_except_Exception. specialize (Hb w).
  destruct (body w) as [[a|e] w1]; cbn [snd] in *; [exact Hb|].
  destruct (is_Exception e); [|exact Hb].
  destruct Hb as [He Hp]. destruct (Hh e w1) as [He' Hp'].
  split; [eapply extends_by_trans; eassumption | congruence].
Qed.

Lemma framed_try_except {A} (body handler : M A) :
  framed body -> framed handler -> framed (try_except body handler).
Proof.
  intros Hb Hh w. unfold try_except. specialize (Hb w).
  destruct (body w) as [[a|e] w1]; cbn [snd] in *; [exact Hb|].
  destruct Hb as [He Hp]. destruct (Hh w1) as [He' Hp'].
  split; [eapply extends_by_trans; eassumption | congruence].
Qed.

Lemma framed_cache_resource {A} (slot : World -> option A)
    (fill : A -> World -> World) (body : M A) :
  (forall v w, trace (fill v w) = trace w /\ proj (fill v w) = proj w) ->
  framed body -> framed (cache_resource slot fill body).
Proof.
  intros Hf Hb w. unfold cache_resource.
  destruct (slot w); [split; [apply extends_by_refl | reflexivity]|].
  specialize (Hb w). destruct (body w) as [[a|e] w1]; cbn [snd] in *;
    [|exact Hb].
  destruct Hb as [(evs & He & HP) Hp]. destruct (Hf a w1) as [Ht Hq].
  split; [exists evs; now rewrite Ht | congruence].
Qed.

Lemma framed_if {A} (b : bool) (m1 m2 : M A) :
  framed m1 -> framed m2 -> framed (if b then m1 else m2).
Proof. destruct b; auto. Qed.

End Frames.

Ltac frame_with tac :=
  repeat first
    [ apply framed_ret
    | apply framed_raise
    | apply framed_emit; [solve [tac] | solve [tac]]
    | apply framed_call; [solve [tac] | solve [tac]]
    | apply framed_bind; [ | intros ]
    | apply framed_try_except_Exception; [ | intros ]
    | apply framed_try_except
    | apply framed_if ].

Lemma forallb_impl (P Q : Event -> bool) (evs : list Event) :
  (forall ev, P ev = true -> Q ev = true) ->
  forallb P evs = true -> forallb Q evs = true.
Proof.
  intros H. induction evs as [|ev evs IH]; simpl; [reflexivity|].
  intros Hp. apply andb_true_iff in Hp as [H1 H2].
  now rewrite (H _ H1), IH.
Qed.

Lemma count_zero (p P : Event -> bool) (evs : list Event) :
  (forall ev, P ev = true -> p ev = false) ->
  forallb P evs = true -> count p evs = 0.
Proof.
  intros H. unfold count.
  induction evs as [|ev evs IH]; simpl; [reflexivity|].
  intros Hp. apply andb_true_iff in Hp as [H1 H2].
  now rewrite (H _ H1), IH.
Qed.

Lemma rendered_nil (P : Event -> bool) (evs : list Event) :
  (forall ev, P ev = true -> not_chat_event ev = true) ->
  forallb P evs = true -> rendered evs = [] /\ chat_input_drawn evs = false.
Proof.
  intros H. induction evs as [|ev evs IH]; simpl; [now split|].
  intros Hp. apply andb_true_iff in Hp as [H1 H2].
  specialize (H _ H1). destruct (IH H2) as [IH1 IH2].
  destruct ev; simpl in *; try discriminate; now split.
Qed.

(** ** get_vector_store *)

Lemma append_events_nil w : append_events [] w = w.
Proof. destruct w. unfold append_events. simpl. now rewrite app_nil_r. Qed.

Lemma log_append_events ev evs w :
  log ev (append_events evs w) = append_events (evs ++ [ev]) w.
Proof. unfold log, append_events. simpl. now rewrite app_assoc. Qed.

Lemma append_events_append evs1 evs2 w :
  append_events evs2 (append_events evs1 w) = append_events (evs1 ++ evs2) w.
Proof. unfold append_events. simpl. now rewrite app_assoc. Qed.

Lemma log_as_append ev w : log ev w = append_events [ev] w.
Proof. reflexivity. Qed.

Lemma events_since_append evs w : events_since w (append_events evs w) = evs.
Proof. now apply events_since_app. Qed.

Lemma load_all_spec (E : Env) files docs w :
  exists r evs,
    load_all E files docs w = (r, append_events evs w) /\
    forallb is_load evs = true /\
    match r with Ret _ => True | Raise e => is_Exception e = true end.
Proof.
  revert docs w. induction files as [|file files IH]; intros docs w; simpl.
  - exists (Ret docs), []. now rewrite append_events_nil.
  - destruct (endswith file ".pdf"); [|apply IH].
    unfold bind, call.
    destruct (pdf_load E (path_join data_folder file)) as [pages|msg];
      cbn [lift_ext].
    + destruct (IH (docs ++ pages)%list
                   (log (EvLoadPdf (path_join data_folder file)) w))
        as (r & evs & Heq & Hall & Hr).
      exists r, (EvLoadPdf (path_join data_folder file) :: evs).
      rewrite Heq, log_as_append, append_events_append. now repeat split.
    + exists (Raise (PyException msg)),
             [EvLoadPdf (path_join data_folder file)].
      now repeat split.
Qed.

(** Files without the extension are skipped without a read. *)
Lemma load_all_no_pdf (E : Env) files docs w :
  filter is_pdf files = [] -> load_all E files docs w = (Ret docs, w).
Proof.
  revert docs. induction files as [|file files IH]; intros docs; simpl;
    [reflexivity|].
  unfold is_pdf in *. destruct (endswith file ".pdf"); [discriminate|].
  apply IH.
Qed.

Lemma forallb_is_load_setup evs :
  forallb is_load evs = true ->
  forallb setup_event evs = true /\ count is_embed evs = 0.
Proof.
  intros H. split.
  - revert H. apply forallb_impl. now intros [].
  - revert H. apply count_zero. now intros [].
Qed.

(** The body always returns; it logs set-up entries only, among them at
    most one index construction, and an error whenever it returns [None]. *)
Lemma get_vector_store_body_spec (E : Env) w :
  exists v evs,
    get_vector_store_body E w = (Ret v, append_events evs w) /\
    forallb setup_event evs = true /\
    count is_embed evs <= 1 /\
    (v = None -> error_drawn evs = true).
Proof.
  unfold get_vector_store_body, bind at 1, call at 1. cbn [lift_ext].
  destruct (path_exists E data_folder); cbn [negb].
  2:{ exists None, [EvPathExists data_folder;
                    UiError "Folder 'data' not found! Please create a 'data' folder."].
      split; [unfold bind, emit, ret;
              now rewrite !log_as_append, !append_events_append|].
      repeat split. cbv; lia. }
  unfold try_except_Exception, bind at 1, call at 1.
  destruct (listdir E data_folder) as [files|msg]; cbn [lift_ext is_Exception].
  2:{ exists None, [EvPathExists data_folder; EvListdir data_folder;
                    UiError ("Error loading PDFs: " ++ msg)].
      split; [unfold bind, emit, ret;
              now rewrite !log_as_append, !append_events_append|].
      repeat split. cbv; lia. }
  unfold bind at 1.
  destruct (load_all_spec E files []
              (log (EvListdir data_folder) (log (EvPathExists data_folder) w)))
    as (r & evs & Heq & Hall & Hr).
  rewrite Heq.
  rewrite (log_as_append (EvPathExists _)), log_as_append,
          !append_events_append.
  destruct (forallb_is_load_setup _ Hall) as [Hs Hc].
  set (pre := [EvPathExists data_folder; EvListdir data_folder]).
  change ([EvPathExists data_folder] ++ [EvListdir data_folder] ++ evs)%list
    with (pre ++ evs)%list.
  assert (Hpre : forall tl, forallb setup_event tl = true ->
            forallb setup_event ((pre ++ evs) ++ tl)%list = true).
  { intros tl Htl. now rewrite !forallb_app, Hs, Htl. }
  assert (Hcount : forall tl,
            count is_embed ((pre ++ evs) ++ tl)%list = count is_embed tl).
  { intros tl. now rewrite !count_app, Hc. }
  assert (Herr : forall tl, error_drawn tl = true ->
            error_drawn ((pre ++ evs) ++ tl)%list = true).
  { intros tl Htl. unfold error_drawn in *.
    rewrite existsb_app, Htl. apply orb_true_r. }
  destruct r as [docs|e].
  - destruct docs as [|d docs].
    + unfold bind, emit, ret. rewrite log_append_events.
      eexists None, _. split; [reflexivity|].
      split; [now apply Hpre|]. split; [rewrite Hcount; cbv; lia|].
      intros _. now apply Herr.
    + unfold bind at 1, call at 1.
      destruct (split_documents E (d :: docs)) as [splits|msg];
        cbn [lift_ext is_Exception].
      * unfold bind at 1, call at 1.
        destruct (from_documents E splits) as [vs|msg];
          cbn [lift_ext is_Exception].
        -- unfold ret. rewrite !log_append_events, <- !app_assoc.
           eexists (Some vs), _. split; [reflexivity|].
           rewrite app_assoc.
           split; [now apply Hpre|]. split; [rewrite Hcount; cbv; lia|].
           discriminate.
        -- unfold bind, emit, ret.
           rewrite !log_append_events, <- !app_assoc.
           eexists None, _. split; [reflexivity|].
           rewrite app_assoc.
           split; [now apply Hpre|]. split; [rewrite Hcount; cbv; lia|].
           intros _. now apply Herr.
      * unfold bind, emit, ret.
        rewrite !log_append_events, <- !app_assoc.
        eexists None, _. split; [reflexivity|].
        rewrite app_assoc.
        split; [now apply Hpre|]. split; [rewrite Hcount; cbv; lia|].
        intros _. now apply Herr.
  - rewrite Hr. unfold bind, emit, ret. rewrite log_append_events.
    eexists None, _. split; [reflexivity|].
    split; [now apply Hpre|]. split; [rewrite Hcount; cbv; lia|].
    intros _. now apply Herr.
Qed.

Lemma get_vector_store_hit (E : Env) w v :
  vector_store_cache w = Some v -> get_vector_store E w = (Ret v, w).
Proof. unfold get_vector_store, cache_resource. now intros ->. Qed.

Lemma get_vector_store_miss (E : Env) w :
  vector_store_cache w = None ->
  exists v evs,
    get_vector_store_body E w = (Ret v, append_events evs w) /\
    get_vector_store E w
    = (Ret v, set_vector_store_cache v (append_events evs w)) /\
    forallb setup_event evs = true /\
    count is_embed evs <= 1 /\
    (v = None -> error_drawn evs = true).
Proof.
  intros Hc. destruct (get_vector_store_body_spec E w)
    as (v & evs & Heq & H1 & H2 & H3).
  exists v, evs. repeat split; try assumption.
  unfold get_vector_store, cache_resource. now rewrite Hc, Heq.
Qed.

(** ** The top of the page *)

Lemma keys_present_false (E : Env) :
  keys_present E = false <->
  negb (truthy_opt (getenv E "GOOGLE_API_KEY"))
  || negb (truthy_opt (getenv E "TAVILY_API_KEY")) = true.
Proof.
  unfold keys_present.
  destruct (truthy_opt (getenv E "GOOGLE_API_KEY")),
           (truthy_opt (getenv E "TAVILY_API_KEY")); simpl; intuition congruence.
Qed.

Lemma keys_present_true (E : Env) :
  keys_present E = true ->
  negb (truthy_opt (getenv E "GOOGLE_API_KEY"))
  || negb (truthy_opt (getenv E "TAVILY_API_KEY")) = false.
Proof.
  intros H. destruct (_ || _) eqn:Hk; [|reflexivity].
  apply keys_present_false in Hk. congruence.
Qed.

Lemma page_top_no_keys (E : Env) inp w :
  keys_present E = false ->
  page_top E inp w = (Raise StopException, log keys_error w).
Proof.
  intros H. apply keys_present_false in H.
  unfold page_top. cbv zeta. rewrite H. reflexivity.
Qed.

Lemma page_top_clear (E : Env) inp w :
  keys_present E = true -> clear_clicked inp = true ->
  page_top E inp w
  = (Raise RerunException,
     set_messages [] (append_events top_events_until_button w)).
Proof.
  intros H Hc. apply keys_present_true in H.
  unfold page_top. cbv zeta. rewrite H, Hc.
  unfold_monad. rewrite !log_as_append, !append_events_append.
  reflexivity.
Qed.

Lemma page_top_plain (E : Env) inp w :
  keys_present E = true -> clear_clicked inp = false ->
  page_top E inp w = (Ret tt, append_events top_events w).
Proof.
  intros H Hc. apply keys_present_true in H.
  unfold page_top. cbv zeta. rewrite H, Hc.
  unfold_monad. rewrite !log_as_append, !append_events_append.
  reflexivity.
Qed.

(** ** The chat surface *)

Lemma render_history_spec (ms : list Message) w :
  render_history ms w = (Ret tt, append_events (map UiChatMessage ms) w).
Proof.
  revert w. induction ms as [|m ms IH]; intros w; simpl.
  - unfold ret. now rewrite append_events_nil.
  - unfold bind, emit. rewrite IH, log_as_append, append_events_append.
    reflexivity.
Qed.

Lemma rendered_map (ms : list Message) : rendered (map UiChatMessage ms) = ms.
Proof. induction ms; simpl; congruence. Qed.

(** Without a submission the surface draws the stored history and the
    input box, seeding the greeting when the session has no history yet. *)
Lemma chat_surface_idle (E : Env) inp vs w :
  chat_input inp = None ->
  let ms := match messages w with Some ms => ms | None => [greeting] end in
  chat_surface E inp vs w
  = (Ret tt,
     set_messages ms (append_events (map UiChatMessage ms ++ [chat_box]) w)).
Proof.
  intros Hi. unfold chat_surface. rewrite Hi.
  unfold bind at 1. destruct (messages w) as [ms|] eqn:Hm; cbv zeta.
  - unfold bind at 1, get_messages at 1. rewrite Hm.
    unfold bind at 1. rewrite render_history_spec.
    unfold bind, emit, ret. rewrite log_append_events.
    unfold set_messages, append_events. cbn. now rewrite Hm.
  - unfold bind at 1, get_messages at 1. cbn [messages set_messages].
    unfold bind at 1. rewrite render_history_spec.
    unfold bind, emit, ret. rewrite log_append_events.
    reflexivity.
Qed.

(** A submission: the history is drawn, then the question is drawn and
    stored, the answer's bubble is opened, and the answer, when there is
    one, is written into it and stored. *)
Lemma chat_surface_submit (E : Env) inp vs w ms user_input r w' :
  chat_input inp = Some user_input -> truthy user_input = true ->
  messages w = Some ms ->
  let human := {| role := "human"; content := user_input |} in
  let w1 := set_messages (ms ++ [human])
              (append_events
                 (map UiChatMessage ms ++
                  [chat_box; UiChatMessage human; UiChatOpen "ai";
                   UiSpinner "Thinking..."]) w) in
  generate_answer E user_input vs (ms ++ [human]) w1 = (r, w') ->
  messages w' = messages w1 ->
  chat_surface E inp vs w
  = match r with
    | Ret response_text =>
        let ai := {| role := "ai"; content := response_text |} in
        (Ret tt, set_messages (ms ++ [human; ai]) (log (UiWrite response_text) w'))
    | Raise e => (Raise e, w')
    end.
Proof.
  intros Hi Ht Hm human w1 Hg Hkeep. unfold chat_surface. rewrite Hi, Ht.
  unfold bind at 1. rewrite Hm.
  unfold bind at 1, get_messages at 1. rewrite Hm.
  unfold bind at 1. rewrite render_history_spec.
  unfold bind at 1, emit at 1.
  unfold bind at 1, emit at 1.
  unfold bind at 1, append_message at 1.
  cbn [messages log append_events]. rewrite Hm.
  unfold bind at 1, emit at 1.
  unfold bind at 1, emit at 1.
  unfold bind at 1, get_messages at 1. cbn [messages set_messages log].
  fold human.
  assert (Hw1 : log (UiSpinner "Thinking...")
            (log (UiChatOpen "ai")
               (set_messages (ms ++ [human])
                  (log (UiChatMessage human)
                     (log (UiChatInput "Type your question here...")
                        (append_events (map UiChatMessage ms) w))))) = w1).
  { unfold w1, set_messages, log, append_events, chat_box. cbn.
    rewrite <- ?app_assoc. reflexivity. }
  rewrite Hw1. unfold bind at 1. rewrite Hg.
  destruct r as [response_text|e]; [|reflexivity].
  unfold bind, emit, append_message. cbn [messages log].
  rewrite Hkeep. cbn [messages w1 set_messages].
  unfold set_messages. cbn. rewrite <- ?app_assoc. reflexivity.
Qed.

(** ** What a query leaves alone *)

Section QueryFrames.

Variable E : Env.
Variable P : Event -> bool.
Variable B : Type.
Variable proj : World -> B.
Hypothesis proj_log : forall ev w, proj (log ev w) = proj w.
Hypothesis proj_model : forall v w, proj (set_model_name_cache v w) = proj w.
Hypothesis P_query : forall ev, query_event ev = true -> P ev = true.

Ltac query_side :=
  first [ exact proj_log | apply P_query; reflexivity ].

Lemma get_working_model_name_framed :
  framed P proj (get_working_model_name E).
Proof.
  apply framed_cache_resource.
  - intros v w. split; [reflexivity | apply proj_model].
  - intros w. unfold get_working_model_name_body.
    destruct (list_models E (trace w)) as [ys f].
    assert (H : extends_by P w (log EvListModels w) /\
                proj (log EvListModels w) = proj w).
    { split; [apply extends_by_log, P_query; reflexivity | apply proj_log]. }
    destruct (pick_model ys); [exact H|]. destruct f; exact H.
Qed.

Lemma answer_stage_framed m p : framed P proj (answer_stage E m p).
Proof. unfold answer_stage, invoke_model. frame_with query_side. Qed.

Lemma web_fallback_framed q model : framed P proj (web_fallback E q model).
Proof.
  unfold web_fallback, invoke_model, checking_online.
  frame_with query_side.
Qed.

Lemma generate_answer_framed q vs h : framed P proj (generate_answer E q vs h).
Proof.
  unfold generate_answer.
  apply framed_bind; [apply get_working_model_name_framed | intros n].
  apply framed_bind; [apply framed_call; query_side | intros docs].
  apply framed_bind; [apply answer_stage_framed | intros stage].
  destruct stage as [err | [answer model]]; [apply framed_ret|].
  apply framed_if; [apply web_fallback_framed | apply framed_ret].
Qed.

End QueryFrames.

Lemma generate_answer_keeps_messages (E : Env) q vs h w :
  messages (snd (generate_answer E q vs h w)) = messages w.
Proof.
  apply (@generate_answer_framed E (fun _ => true) _ messages); auto.
Qed.

(** ** What the chat surface leaves alone *)

Lemma chat_surface_framed (E : Env) inp vs :
  framed page_event vector_store_cache (chat_surface E inp vs).
Proof.
  assert (Hstate : forall (f : World -> result unit * World),
            (forall w, trace (snd (f w)) = trace w /\
                       vector_store_cache (snd (f w)) = vector_store_cache w) ->
            framed page_event vector_store_cache f).
  { intros f Hf w. destruct (Hf w) as [Ht Hc]. split; [|exact Hc].
    exists []. now rewrite app_nil_r. }
  assert (Hget : framed page_event vector_store_cache get_messages).
  { intros w. unfold get_messages.
    destruct (messages w); (split; [apply extends_by_refl | reflexivity]). }
  assert (Happ : forall m, framed page_event vector_store_cache
                             (append_message m)).
  { intros m. apply Hstate. intros w. unfold append_message.
    destruct (messages w); now split. }
  assert (Hrender : forall ms, framed page_event vector_store_cache
                                 (render_history ms)).
  { induction ms as [|m ms IH]; simpl.
    - apply framed_ret.
    - apply framed_bind; [|intros; exact IH].
      apply framed_emit; reflexivity. }
  unfold chat_surface.
  apply framed_bind; [|intros _].
  { apply Hstate. intros w. destruct (messages w); now split. }
  apply framed_bind; [exact Hget | intros history].
  apply framed_bind; [apply Hrender | intros _].
  apply framed_bind; [apply framed_emit; reflexivity | intros _].
  destruct (chat_input inp) as [user_input|]; [|apply framed_ret].
  destruct (truthy user_input); [|apply framed_ret].
  apply framed_bind; [apply framed_emit; reflexivity | intros _].
  apply framed_bind; [apply Happ | intros _].
  apply framed_bind; [apply framed_emit; reflexivity | intros _].
  apply framed_bind; [apply framed_emit; reflexivity | intros _].
  apply framed_bind; [exact Hget | intros history'].
  apply framed_bind; [|intros response_text].
  { apply generate_answer_framed; try reflexivity.
    intros ev Hev. destruct ev; try discriminate; reflexivity. }
  apply framed_bind; [apply framed_emit; reflexivity | intros _].
  apply Happ.
Qed.

Lemma page_top_framed (E : Env) inp :
  framed page_event vector_store_cache (page_top E inp).
Proof.
  unfold page_top, keys_error. cbv zeta.
  frame_with ltac:(reflexivity).
  intros w. split; [|reflexivity].
  exists []. simpl. now rewrite app_nil_r.
Qed.

(** ** One run of the script *)

Lemma script_eq (E : Env) inp w :
  script E inp w =
  match page_top E inp w with
  | (Ret _, w1) =>
      match get_vector_store E w1 with
      | (Ret (Some vs), w2) => chat_surface E inp vs w2
      | (Ret None, w2) => (Ret tt, w2)
      | (Raise e, w2) => (Raise e, w2)
      end
  | (Raise e, w1) => (Raise e, w1)
  end.
Proof.
  unfold script, bind.
  destruct (page_top E inp w) as [[[]|e] w1]; [|reflexivity].
  destruct (get_vector_store E w1) as [[[vs|]|e] w2]; reflexivity.
Qed.

Lemma script_stop (E : Env) inp w :
  keys_present E = false ->
  script E inp w = (Raise StopException, log keys_error w).
Proof. intros H. now rewrite script_eq, page_top_no_keys. Qed.

Lemma script_clear (E : Env) inp w :
  keys_present E = true -> clear_clicked inp = true ->
  script E inp w
  = (Raise RerunException,
     set_messages [] (append_events top_events_until_button w)).
Proof. intros H Hc. now rewrite script_eq, page_top_clear. Qed.

Lemma script_idle (E : Env) inp w :
  keys_present E = true -> clear_clicked inp = false ->
  chat_input inp = None ->
  exists v evs,
    script E inp w = (Ret tt, idle_world w v evs) /\
    match vector_store_cache w with
    | Some v' => v = v' /\ evs = []
    | None =>
        get_vector_store_body E (append_events top_events w)
        = (Ret v, append_events evs (append_events top_events w)) /\
        forallb setup_event evs = true /\
        count is_embed evs <= 1 /\
        (v = None -> error_drawn evs = true)
    end.
Proof.
  intros Hk Hc Hi. rewrite script_eq, (page_top_plain E inp w Hk Hc).
  destruct (vector_store_cache w) as [v|] eqn:Hv.
  - exists v, []. split; [|now split].
    rewrite (get_vector_store_hit E (append_events top_events w) Hv).
    destruct v as [vs|].
    + rewrite (chat_surface_idle E inp vs _ Hi).
      unfold idle_world, set_messages, append_events. cbn.
      rewrite Hv, <- !app_assoc. reflexivity.
    + unfold idle_world, append_events. cbn.
      rewrite Hv, ?app_nil_r. reflexivity.
  - destruct (get_vector_store_miss E (append_events top_events w) Hv)
      as (v & evs & Hb & Hg & H1 & H2 & H3).
    exists v, evs. split; [|now repeat split].
    rewrite Hg. destruct v as [vs|].
    + rewrite (chat_surface_idle E inp vs _ Hi).
      unfold idle_world, set_messages, set_vector_store_cache, append_events.
      cbn. rewrite <- !app_assoc. reflexivity.
    + unfold idle_world, set_vector_store_cache, append_events. cbn.
      rewrite <- ?app_assoc, ?app_nil_r. reflexivity.
Qed.

Lemma script_no_inputs_no_rerun (E : Env) w :
  fst (script E no_inputs w) <> Raise RerunException.
Proof.
  destruct (keys_present E) eqn:Hk.
  - destruct (script_idle E no_inputs w Hk eq_refl eq_refl)
      as (v & evs & Heq & _).
    rewrite Heq. discriminate.
  - rewrite script_stop by assumption. discriminate.
Qed.

Lemma top_events_plain :
  rendered top_events = [] /\ chat_input_drawn top_events = false /\
  error_drawn top_events = false /\ count is_embed top_events = 0.
Proof. repeat split. Qed.

Lemma setup_events_plain evs :
  forallb setup_event evs = true ->
  rendered evs = [] /\ chat_input_drawn evs = false.
Proof. apply rendered_nil. now intros []. Qed.

Lemma setup_events_no_open evs :
  forallb setup_event evs = true -> existsb is_open evs = false.
Proof. apply no_open_class. now intros []. Qed.

Lemma chat_input_drawn_app a b :
  chat_input_drawn (a ++ b)%list = chat_input_drawn a || chat_input_drawn b.
Proof. apply existsb_app. Qed.

Lemma error_drawn_app a b :
  error_drawn (a ++ b)%list = error_drawn a || error_drawn b.
Proof. apply existsb_app. Qed.

Lemma chat_input_drawn_messages ms :
  chat_input_drawn (map UiChatMessage ms) = false.
Proof. induction ms; simpl; auto. Qed.

(** ** Clearing the conversation *)

(** C2, as the code has it: the clear action, in any session state, leaves
    the session history empty, and the run that follows draws no message;
    the greeting is seeded only when the session has no history at all. *)
Theorem clear_empties_history (E : Env) (inp : Inputs) (w : World) :
  keys_present E = true -> clear_clicked inp = true ->
  let out := interaction E inp w in
  fst out = Ret tt /\
  messages (snd out) = Some [] /\
  rendered (events_since w (snd out)) = [].
Proof.
  intros Hk Hc. cbv zeta. unfold interaction.
  rewrite (script_clear E inp w Hk Hc).
  set (w1 := set_messages [] (append_events top_events_until_button w)).
  destruct (script_idle E no_inputs w1 Hk eq_refl eq_refl)
    as (v & evs & Heq & Hv).
  rewrite Heq. cbn [fst snd]. split; [reflexivity|].
  assert (Hevs : rendered evs = [] /\ existsb is_open evs = false).
  { destruct (vector_store_cache w1).
    - destruct Hv as [_ ->]. now split.
    - destruct Hv as (_ & Hs & _).
      split; [now apply setup_events_plain | now apply setup_events_no_open]. }
  destruct Hevs as [Hevs Hno].
  split.
  - unfold idle_world. cbn. now destruct v.
  - rewrite (events_since_app w (idle_world w1 v evs)
               (top_events_until_button ++ top_events ++ evs ++
                match v with Some _ => [chat_box] | None => [] end)%list).
    + rewrite !rendered_app by no_open. rewrite Hevs. now destruct v.
    + unfold idle_world, w1. cbn. rewrite <- !app_assoc.
      now destruct v.
Qed.

Lemma clear_empties_history_witness :
  messages (snd (interaction Sample.env_web Startup.clear
                   (Demo.busy Demo.store_ok))) = Some [].
Proof.
  apply (@clear_empties_history Sample.env_web Startup.clear
           (Demo.busy Demo.store_ok)); reflexivity.
Defined.

(** C2 as stated fails: after a clear the history is empty, not the
    greeting, and nothing is drawn. *)
Lemma clear_leaves_no_greeting :
  let w := Demo.busy Demo.store_ok in
  let out := interaction Sample.env_web Startup.clear w in
  messages (snd out) <> Some [greeting] /\
  length (rendered (events_since w (snd out))) = 0 /\
  rendered (events_since w (snd (interaction Sample.env_web no_inputs w)))
  = [ greeting;
      {| role := "human"; content := "hi" |};
      {| role := "ai"; content := "How can I help?" |} ].
Proof.
  cbv zeta. split; [|split].
  - vm_compute. discriminate.
  - vm_compute. reflexivity.
  - vm_compute. reflexivity.
Qed.

Lemma load_all_stops (E : Env) (pages : string -> list Document)
    before file after docs msg w :
  (forall f, In f before -> is_pdf f = true ->
             pdf_load E (path_join data_folder f) = Success (pages f)) ->
  is_pdf file = true ->
  pdf_load E (path_join data_folder file) = Failure msg ->
  load_all E (before ++ file :: after) docs w
  = (Raise (PyException msg),
     append_events (map load_event (filter is_pdf before) ++ [load_event file]) w).
Proof.
  revert docs w. induction before as [|f before IH]; intros docs w Hp Hf Hl.
  - cbn [app load_all filter map].
    change (endswith file ".pdf") with (is_pdf file). rewrite Hf.
    unfold bind, call. rewrite Hl. reflexivity.
  - cbn [app load_all filter].
    change (endswith f ".pdf") with (is_pdf f).
    destruct (is_pdf f) eqn:Hpf.
    + unfold bind, call. rewrite (Hp f (or_introl eq_refl) Hpf).
      cbn [lift_ext].
      rewrite IH;
        [ | intros; apply Hp; [now right | assumption]
          | assumption | assumption ].
      rewrite log_as_append, append_events_append. reflexivity.
    + apply IH; [ intros; apply Hp; [now right | assumption]
                | assumption | assumption ].
Qed.

(** ** Start-up *)

Lemma body_no_folder (E : Env) w :
  path_exists E data_folder = false ->
  get_vector_store_body E w
  = (Ret None, append_events [EvPathExists data_folder; folder_error] w).
Proof.
  intros H. unfold get_vector_store_body, bind at 1, call at 1.
  cbn [lift_ext]. rewrite H. cbn [negb].
  unfold bind, emit, ret, folder_error.
  now rewrite !log_as_append, !append_events_append.
Qed.

Lemma body_no_pdf (E : Env) w files :
  path_exists E data_folder = true ->
  listdir E data_folder = Success files ->
  filter is_pdf files = [] ->
  get_vector_store_body E w
  = (Ret None,
     append_events
       [EvPathExists data_folder; EvListdir data_folder; no_pdf_error] w).
Proof.
  intros H Hl Hf. unfold get_vector_store_body, bind at 1, call at 1.
  cbn [lift_ext]. rewrite H. cbn [negb].
  unfold try_except_Exception, bind at 1, call at 1. rewrite Hl.
  cbn [lift_ext]. unfold bind at 1. rewrite (load_all_no_pdf E _ _ _ Hf).
  unfold bind, emit, ret, no_pdf_error.
  now rewrite !log_as_append, !append_events_append.
Qed.

(** When every PDF loads, the documents are the pages of the PDF files of
    the folder, in listing order. *)
Lemma load_all_ok (E : Env) (pages : string -> list Document) files docs w :
  (forall f, In f files -> is_pdf f = true ->
             pdf_load E (path_join data_folder f) = Success (pages f)) ->
  load_all E files docs w
  = (Ret (docs ++ flat_map pages (filter is_pdf files))%list,
     append_events
       (map (fun f => EvLoadPdf (path_join data_folder f))
            (filter is_pdf files)) w).
Proof.
  revert docs w. induction files as [|file files IH]; intros docs w Hp.
  - cbn. unfold ret. now rewrite append_events_nil, app_nil_r.
  - cbn [load_all filter].
    change (endswith file ".pdf") with (is_pdf file).
    destruct (is_pdf file) eqn:Hf.
    + unfold bind, call. rewrite (Hp file (or_introl eq_refl) Hf).
      cbn [lift_ext].
      rewrite IH by (intros; apply Hp; [now right | assumption]).
      rewrite log_as_append, append_events_append.
      cbn [flat_map map app]. now rewrite <- app_assoc.
    + apply IH. intros; apply Hp; [now right | assumption].
Qed.

Lemma body_ok (E : Env) (pages : string -> list Document) w
    files d docs splits vs :
  path_exists E data_folder = true ->
  listdir E data_folder = Success files ->
  (forall f, In f files -> is_pdf f = true ->
             pdf_load E (path_join data_folder f) = Success (pages f)) ->
  flat_map pages (filter is_pdf files) = d :: docs ->
  split_documents E (d :: docs) = Success splits ->
  from_documents E splits = Success vs ->
  get_vector_store_body E w
  = (Ret (Some vs),
     append_events
       ([EvPathExists data_folder; EvListdir data_folder] ++
        map (fun f => EvLoadPdf (path_join data_folder f)) (filter is_pdf files) ++
        [EvSplit (d :: docs); EvEmbed splits]) w).
Proof.
  intros H Hl Hp Hd Hs Hv. unfold get_vector_store_body, bind at 1, call at 1.
  cbn [lift_ext]. rewrite H. cbn [negb].
  unfold try_except_Exception, bind at 1, call at 1. rewrite Hl.
  cbn [lift_ext]. unfold bind at 1.
  rewrite (load_all_ok E pages files [] _ Hp). cbn [app]. rewrite Hd.
  unfold bind at 1, call at 1. rewrite Hs. cbn [lift_ext].
  unfold bind at 1, call at 1. rewrite Hv. cbn [lift_ext]. unfold ret.
  rewrite !log_as_append, !append_events_append.
  reflexivity.
Qed.

Lemma append_events_inj evs evs' w :
  append_events evs w = append_events evs' w -> evs = evs'.
Proof.
  intros H. apply (f_equal trace) in H. simpl in H.
  now apply app_inv_head in H.
Qed.

(** The first run in a fresh process, with the keys in place. *)
Lemma startup_with_keys (E : Env) :
  keys_present E = true ->
  exists v evs,
    get_vector_store_body E (append_events top_events initial_world)
    = (Ret v, append_events evs (append_events top_events initial_world)) /\
    startup E = (Ret tt, idle_world initial_world v evs) /\
    forallb setup_event evs = true /\
    count is_embed evs <= 1 /\
    (v = None -> error_drawn evs = true).
Proof.
  intros Hk. unfold startup.
  destruct (script_idle E no_inputs initial_world Hk eq_refl eq_refl)
    as (v & evs & Heq & Hb & H1 & H2 & H3).
  exists v, evs. now repeat split.
Qed.

Lemma idle_world_drawn v evs :
  forallb setup_event evs = true ->
  chat_input_drawn (trace (idle_world initial_world v evs))
  = match v with Some _ => true | None => false end /\
  rendered (trace (idle_world initial_world v evs))
  = match v with Some _ => [greeting] | None => [] end /\
  error_drawn (trace (idle_world initial_world v evs)) = error_drawn evs.
Proof.
  intros Hs. destruct (setup_events_plain _ Hs) as [Hr Hc].
  pose proof (setup_events_no_open _ Hs) as Hno.
  unfold idle_world. cbn [trace messages initial_world app].
  rewrite !chat_input_drawn_app, !error_drawn_app.
  rewrite !rendered_app by no_open. rewrite Hr, Hc.
  destruct v; cbn; rewrite ?orb_false_r; repeat split.
Qed.

Lemma page_top_quiet (E : Env) inp :
  framed not_chat_event vector_store_cache (page_top E inp).
Proof.
  unfold page_top, keys_error. cbv zeta.
  frame_with ltac:(reflexivity).
  intros w. split; [|reflexivity].
  exists []. simpl. now rewrite app_nil_r.
Qed.

Lemma script_stuck (E : Env) inp w :
  vector_store_cache w = Some None ->
  extends_by not_chat_event w (snd (script E inp w)) /\
  vector_store_cache (snd (script E inp w)) = Some None.
Proof.
  intros Hv. rewrite script_eq.
  destruct (page_top_quiet E inp w) as [He1 Hc1].
  destruct (page_top E inp w) as [[[]|e] w1]; cbn [snd] in *.
  2:{ split; [exact He1 | congruence]. }
  assert (Hv1 : vector_store_cache w1 = Some None) by congruence.
  rewrite (get_vector_store_hit E w1 Hv1). now split.
Qed.

Lemma interaction_stuck (E : Env) inp w :
  vector_store_cache w = Some None ->
  extends_by not_chat_event w (snd (interaction E inp w)) /\
  vector_store_cache (snd (interaction E inp w)) = Some None.
Proof.
  intros Hv. unfold interaction.
  destruct (script_stuck E inp w Hv) as [He Hc].
  destruct (script E inp w) as [[[]|e] w1]; cbn [snd] in *; [now split|].
  destruct e; try (now split).
  destruct (script_stuck E no_inputs w1 Hc) as [He' Hc'].
  split; [eapply extends_by_trans; eassumption | exact Hc'].
Qed.

Lemma pdfs_load_or_not (E : Env) (files : list string) :
  (forall f, In f files -> is_pdf f = true ->
             pdf_load E (path_join data_folder f) = Success (loaded_pages E f)) \/
  (exists before file after msg,
      files = (before ++ file :: after)%list /\
      (forall f, In f before -> is_pdf f = true ->
                 pdf_load E (path_join data_folder f)
                 = Success (loaded_pages E f)) /\
      is_pdf file = true /\
      pdf_load E (path_join data_folder file) = Failure msg).
Proof.
  induction files as [|file files IH].
  - left. intros f [].
  - destruct (is_pdf file) eqn:Hf.
    + destruct (pdf_load E (path_join data_folder file)) as [pages|msg] eqn:Hl.
      * destruct IH as [IH | (before & g & after & msg & -> & Hb & Hg & Hm)].
        -- left. intros f [<-|Hin] Hp.
           ++ unfold loaded_pages. now rewrite Hl.
           ++ now apply IH.
        -- right. exists (file :: before), g, after, msg.
           split; [reflexivity|]. split; [|now split].
           intros f [<-|Hin] Hp.
           ++ unfold loaded_pages. now rewrite Hl.
           ++ now apply Hb.
      * right. exists [], file, files, msg. split; [reflexivity|].
        split; [intros f [] | now split].
    + destruct IH as [IH | (before & g & after & msg & -> & Hb & Hg & Hm)].
      * left. intros f [<-|Hin] Hp; [congruence | now apply IH].
      * right. exists (file :: before), g, after, msg.
        split; [reflexivity|]. split; [|now split].
        intros f [<-|Hin] Hp; [congruence | now apply Hb].
Qed.

(** The body returns a store only when the outside world lets the index
    be built. *)
Lemma body_some_buildable (E : Env) w vs w' :
  get_vector_store_body E w = (Ret (Some vs), w') -> index_buildable E.
Proof.
  intros H. destruct (path_exists E data_folder) eqn:Hp.
  2:{ rewrite (body_no_folder E w Hp) in H. discriminate. }
  split; [exact Hp|].
  unfold get_vector_store_body, bind at 1, call at 1 in H.
  cbn [lift_ext] in H. rewrite Hp in H. cbn [negb] in H.
  unfold try_except_Exception, bind at 1, call at 1 in H.
  destruct (listdir E data_folder) as [files|msg] eqn:Hl;
    cbn [lift_ext is_Exception] in H; [|discriminate].
  unfold bind at 1 in H.
  destruct (pdfs_load_or_not E files)
    as [Hall | (before & file & after & msg & -> & Hb & Hf & Hm)].
  - rewrite (load_all_ok E (loaded_pages E) files [] _ Hall) in H.
    cbn [app] in H.
    destruct (flat_map (loaded_pages E) (filter is_pdf files))
      as [|d docs] eqn:Hd; [discriminate|].
    unfold bind at 1, call at 1 in H.
    destruct (split_documents E (d :: docs)) as [splits|msg] eqn:Hs;
      cbn [lift_ext is_Exception] in H; [|discriminate].
    unfold bind at 1, call at 1 in H.
    destruct (from_documents E splits) as [vs'|msg] eqn:Hv;
      cbn [lift_ext is_Exception] in H; [|discriminate].
    unfold ret in H. injection H as -> _.
    exists files, (loaded_pages E), splits, vs.
    rewrite Hd. repeat split; auto. discriminate.
  - rewrite (load_all_stops E (loaded_pages E) before file after [] _ Hb Hf Hm)
      in H.
    discriminate.
Qed.

Lemma buildable_body_some (E : Env) w :
  index_buildable E -> exists vs w', get_vector_store_body E w = (Ret (Some vs), w').
Proof.
  intros (Hp & files & pages & splits & vs & Hl & Hall & Hne & Hs & Hv).
  destruct (flat_map pages (filter is_pdf files)) as [|d docs] eqn:Hd;
    [congruence|].
  exists vs. eexists. exact (body_ok E pages w Hp Hl Hall Hd Hs Hv).
Qed.

(** A process that is blocked stays blocked while the outside world stays
    the same: without a key every run stops, and a cached None is kept. *)
Lemma blocked_interaction (E : Env) inp w :
  keys_present E = false \/ vector_store_cache w = Some None ->
  extends_by not_chat_event w (snd (interaction E inp w)) /\
  (keys_present E = false \/
   vector_store_cache (snd (interaction E inp w)) = Some None).
Proof.
  intros [Hk|Hv].
  - unfold interaction. rewrite (script_stop E inp w Hk). cbn [snd].
    split; [now apply extends_by_log | now left].
  - destruct (interaction_stuck E inp w Hv) as [He Hc].
    split; [exact He | now right].
Qed.

Lemma blocked_later (E : Env) inputs w :
  keys_present E = false \/ vector_store_cache w = Some None ->
  extends_by not_chat_event w (later E inputs w).
Proof.
  revert w. induction inputs as [|inp inputs IH]; intros w Hb.
  - apply extends_by_refl.
  - destruct (blocked_interaction E inp w Hb) as [He Hb'].
    unfold later. cbn [map serve].
    eapply extends_by_trans; [exact He | apply IH, Hb'].
Qed.

Lemma not_chat_trace (tr evs : list Event) :
  forallb not_chat_event tr = true -> forallb not_chat_event evs = true ->
  chat_input_drawn (tr ++ evs)%list = false /\ rendered (tr ++ evs)%list = [].
Proof.
  intros Ht He.
  assert (H : forallb not_chat_event (tr ++ evs)%list = true)
    by now rewrite forallb_app, Ht, He.
  destruct (@rendered_nil not_chat_event _ (fun _ h => h) H) as [H1 H2].
  now split.
Qed.

(** C6, as the code has it.  With a credential absent the first run shows
    the key error and stops before anything else is drawn.  With the
    folder missing, or with no file with the extension in it, the run
    shows an error and ends normally with the page top (the sidebar and
    its reset button among it) drawn.  In all three cases no chat surface
    is drawn, in that run or in any later interaction while the outside
    world stays the same.  The chat surface is drawn exactly when both
    credentials are present and the index can be built: the folder exists
    and is listed, every listed PDF loads, at least one page is read, and
    the splitting and the index construction succeed; whenever the surface
    is not drawn an error is. *)
Theorem startup_gate (E : Env) :
  let tr := trace (snd (startup E)) in
  (keys_present E = false ->
     startup E = (Raise StopException, log keys_error initial_world)) /\
  (keys_present E = true -> path_exists E data_folder = false ->
     fst (startup E) = Ret tt /\
     tr = (top_events ++ [EvPathExists data_folder; folder_error])%list) /\
  (keys_present E = true -> path_exists E data_folder = true ->
     forall files,
       listdir E data_folder = Success files -> filter is_pdf files = [] ->
       fst (startup E) = Ret tt /\
       tr = (top_events ++
             [EvPathExists data_folder; EvListdir data_folder; no_pdf_error])%list) /\
  ((keys_present E = false \/
    path_exists E data_folder = false \/
    (exists files, listdir E data_folder = Success files /\
                   filter is_pdf files = [])) ->
   chat_input_drawn tr = false /\ rendered tr = [] /\ error_drawn tr = true /\
   forall inputs,
     chat_input_drawn (trace (later E inputs (snd (startup E)))) = false /\
     rendered (trace (later E inputs (snd (startup E)))) = []) /\
  (chat_input_drawn tr = true <->
   keys_present E = true /\ index_buildable E) /\
  (chat_input_drawn tr = true -> rendered tr = [greeting]) /\
  (chat_input_drawn tr = false -> rendered tr = [] /\ error_drawn tr = true).
Proof.
  cbv zeta. destruct (keys_present E) eqn:Hk.
  - destruct (startup_with_keys E Hk) as (v & evs & Hb & Hst & Hs & _ & Herr).
    rewrite Hst. cbn [fst snd].
    destruct (@idle_world_drawn v evs Hs) as (Hc & Hr & He).
    rewrite Hc, Hr, He.
    assert (Hnone : v = None ->
              forall inputs,
                chat_input_drawn
                  (trace (later E inputs (idle_world initial_world v evs)))
                = false /\
                rendered
                  (trace (later E inputs (idle_world initial_world v evs)))
                = []).
    { intros -> inputs.
      destruct (blocked_later E inputs (idle_world initial_world None evs)
                  (or_intror eq_refl)) as (evs' & Htr & Hq).
      rewrite Htr. apply not_chat_trace; [|exact Hq].
      unfold idle_world. cbn [trace initial_world app].
      rewrite app_nil_r, forallb_app. cbn.
      revert Hs. apply forallb_impl. now intros []. }
    assert (Hfolder : path_exists E data_folder = false ->
              v = None /\ evs = [EvPathExists data_folder; folder_error]).
    { intros Hf. rewrite (body_no_folder E _ Hf) in Hb.
      injection Hb as <- Hb. now split. }
    assert (Hnopdf : path_exists E data_folder = true ->
              forall files, listdir E data_folder = Success files ->
              filter is_pdf files = [] ->
              v = None /\
              evs = [EvPathExists data_folder; EvListdir data_folder;
                     no_pdf_error]).
    { intros Hp files Hl Hf. rewrite (body_no_pdf E _ Hp Hl Hf) in Hb.
      injection Hb as <- Hb. now split. }
    split; [discriminate|]. split; [|split; [|split; [|split; [|split]]]].
    + intros _ Hf. destruct (Hfolder Hf) as [-> ->].
      split; reflexivity.
    + intros _ Hp files Hl Hf. destruct (Hnopdf Hp files Hl Hf) as [-> ->].
      split; reflexivity.
    + intros [Hf | [Hf | (files & Hl & Hf)]]; [discriminate| |].
      * destruct (Hfolder Hf) as [Hv ->]. subst v.
        repeat split; try reflexivity; now apply Hnone.
      * destruct (path_exists E data_folder) eqn:Hp.
        -- destruct (Hnopdf eq_refl files Hl Hf) as [Hv ->]. subst v.
           repeat split; try reflexivity; now apply Hnone.
        -- destruct (Hfolder eq_refl) as [Hv ->]. subst v.
           repeat split; try reflexivity; now apply Hnone.
    + destruct v as [vs|]; split.
      * intros _. split; [reflexivity|].
        now apply (body_some_buildable E _ Hb).
      * intros _. reflexivity.
      * discriminate.
      * intros (_ & Hbuild).
        destruct (@buildable_body_some E
                    (append_events top_events initial_world) Hbuild)
          as (vs' & w' & Hb').
        rewrite Hb' in Hb. discriminate.
    + now destruct v.
    + destruct v; [discriminate|]. intros _.
      split; [reflexivity | now apply Herr].
  - unfold startup. rewrite (script_stop E no_inputs initial_world Hk).
    cbn [fst snd].
    split; [reflexivity|]. split; [discriminate|]. split; [discriminate|].
    split; [|split; [|split]].
    + intros _. split; [reflexivity|]. split; [reflexivity|].
      split; [reflexivity|]. intros inputs.
      destruct (blocked_later E inputs (log keys_error initial_world)
                  (or_introl Hk)) as (evs' & Htr & Hq).
      rewrite Htr. now apply not_chat_trace.
    + split; [discriminate | intros [H _]; discriminate].
    + discriminate.
    + intros _. split; reflexivity.
Qed.

Lemma startup_gate_witness :
  chat_input_drawn (trace (snd (startup Startup.env_no_pdf))) = false /\
  rendered (trace (snd (startup Startup.env_no_pdf))) = [] /\
  error_drawn (trace (snd (startup Startup.env_no_pdf))) = true /\
  forall inputs,
    chat_input_drawn
      (trace (later Startup.env_no_pdf inputs (snd (startup Startup.env_no_pdf))))
    = false /\
    rendered
      (trace (later Startup.env_no_pdf inputs (snd (startup Startup.env_no_pdf))))
    = [].
Proof.
  apply (proj1 (proj2 (proj2 (proj2 (startup_gate Startup.env_no_pdf))))).
  right; right. exists ["readme.txt"; "notes.PDF"]. split; reflexivity.
Defined.

(** C6 as stated fails: with both keys, the folder and a PDF in it, the
    chat surface is still not drawn when the PDF cannot be parsed. *)
Lemma broken_pdf_blocks_startup :
  let E := Sample.env_broken_pdf in
  keys_present E = true /\
  path_exists E data_folder = true /\
  listdir E data_folder = Success ["packages.pdf"] /\
  filter is_pdf ["packages.pdf"] = ["packages.pdf"] /\
  chat_input_drawn (trace (snd (startup E))) = false /\
  trace (snd (startup E))
  = (top_events ++
     [ EvPathExists "data"; EvListdir "data"; EvLoadPdf "data/packages.pdf";
       UiError "Error loading PDFs: EOF marker not found" ])%list.
Proof. vm_compute. repeat split. Qed.

Example startup_sample :
  rendered (trace (snd (startup Sample.env_web))) = [greeting] /\
  chat_input_drawn (trace (snd (startup Sample.env_web))) = true.
Proof. vm_compute. split; reflexivity. Qed.

Example startup_no_key :
  startup Startup.env_no_key = (Raise StopException, log keys_error initial_world).
Proof. vm_compute. reflexivity. Qed.

Example startup_no_folder :
  trace (snd (startup Startup.env_no_folder))
  = (top_events ++ [EvPathExists "data"; folder_error])%list.
Proof. vm_compute. reflexivity. Qed.

(** ** The memo slot of get_vector_store *)

Lemma page_event_counts evs :
  forallb page_event evs = true ->
  count is_embed evs = 0 /\ count is_file_read evs = 0.
Proof.
  intros H. split; revert H; apply count_zero; intros ev Hev;
    unfold page_event in Hev; apply andb_true_iff in Hev as [H1 H2];
    now apply negb_true_iff.
Qed.

Lemma script_hit (E : Env) inp w v :
  vector_store_cache w = Some v ->
  extends_by page_event w (snd (script E inp w)) /\
  vector_store_cache (snd (script E inp w)) = Some v.
Proof.
  intros Hv. rewrite script_eq.
  destruct (page_top_framed E inp w) as [He1 Hc1].
  destruct (page_top E inp w) as [[[]|e] w1]; cbn [snd] in *.
  2:{ split; [exact He1 | congruence]. }
  assert (Hv1 : vector_store_cache w1 = Some v) by congruence.
  rewrite (get_vector_store_hit E w1 Hv1).
  destruct v as [vs|]; [|now split].
  destruct (chat_surface_framed E inp vs w1) as [He2 Hc2].
  split; [eapply extends_by_trans; eassumption | congruence].
Qed.

Lemma interaction_hit (E : Env) inp w v :
  vector_store_cache w = Some v ->
  extends_by page_event w (snd (interaction E inp w)) /\
  vector_store_cache (snd (interaction E inp w)) = Some v.
Proof.
  intros Hv. unfold interaction.
  destruct (script_hit E inp w Hv) as [He Hc].
  destruct (script E inp w) as [[[]|e] w1]; cbn [snd] in *; [now split|].
  destruct e; try (now split).
  destruct (script_hit E no_inputs w1 Hc) as [He' Hc'].
  split; [eapply extends_by_trans; eassumption | exact Hc'].
Qed.

Lemma serve_hit steps w v :
  vector_store_cache w = Some v ->
  extends_by page_event w (serve steps w) /\
  vector_store_cache (serve steps w) = Some v.
Proof.
  revert w. induction steps as [|[E inp] steps IH]; intros w Hv; simpl.
  - split; [apply extends_by_refl | exact Hv].
  - destruct (interaction_hit E inp w Hv) as [He Hc].
    destruct (IH _ Hc) as [He' Hc'].
    split; [eapply extends_by_trans; eassumption | exact Hc'].
Qed.

Lemma script_built (E : Env) inp w :
  built_at_most_once w -> built_at_most_once (snd (script E inp w)).
Proof.
  intros [Hle Hnone]. destruct (vector_store_cache w) as [v|] eqn:Hv.
  - destruct (script_hit E inp w Hv) as [(evs & Ht & Hp) Hc].
    destruct (page_event_counts _ Hp) as [H0 _].
    split; [|congruence]. rewrite Ht, count_app, H0. lia.
  - specialize (Hnone eq_refl). rewrite script_eq.
    destruct (page_top_framed E inp w) as [(evs1 & Ht1 & Hp1) Hc1].
    destruct (page_event_counts _ Hp1) as [H1 _].
    destruct (page_top E inp w) as [[[]|e] w1]; cbn [snd] in *.
    2:{ split; rewrite Ht1, count_app, H1; lia. }
    assert (Hv1 : vector_store_cache w1 = None) by congruence.
    destruct (get_vector_store_miss E w1 Hv1)
      as (v & evs2 & _ & Hg & _ & H2 & _).
    rewrite Hg.
    set (w2 := set_vector_store_cache v (append_events evs2 w1)).
    assert (Hw2 : built_at_most_once w2 /\ vector_store_cache w2 = Some v).
    { split; [|reflexivity]. split; [|discriminate].
      unfold w2. cbn [trace set_vector_store_cache append_events].
      rewrite Ht1, !count_app, H1. lia. }
    destruct Hw2 as [[Hle2 _] Hv2].
    destruct v as [vs|]; [|cbn [snd]; split; [exact Hle2 | congruence]].
    destruct (chat_surface_framed E inp vs w2) as [(evs3 & Ht3 & Hp3) Hc3].
    destruct (page_event_counts _ Hp3) as [H3 _].
    split; [rewrite Ht3, count_app, H3; lia | congruence].
Qed.

Lemma interaction_built (E : Env) inp w :
  built_at_most_once w -> built_at_most_once (snd (interaction E inp w)).
Proof.
  intros H. unfold interaction.
  pose proof (script_built E inp H) as H1.
  destruct (script E inp w) as [[[]|e] w1]; cbn [snd] in *; [exact H1|].
  destruct e; try exact H1. now apply script_built.
Qed.

Lemma serve_built steps w :
  built_at_most_once w -> built_at_most_once (serve steps w).
Proof.
  revert w. induction steps as [|[E inp] steps IH]; intros w H; simpl.
  - exact H.
  - apply IH, interaction_built, H.
Qed.

(** C8: a call of [get_vector_store] always returns and leaves the slot
    filled with what it returned; with the slot empty and the folder
    readable it builds the index from the pages of the PDF files listed;
    with the slot filled it returns the stored value, logs nothing, and no
    later interaction changes the slot, reads a file or builds an index.
    Over a whole process the index is built at most once. *)
Theorem index_built_once (E : Env) (w : World) (steps : list (Env * Inputs)) :
  (exists v,
      fst (get_vector_store E w) = Ret v /\
      vector_store_cache (snd (get_vector_store E w)) = Some v) /\
  (forall v, vector_store_cache w = Some v ->
      get_vector_store E w = (Ret v, w) /\
      vector_store_cache (serve steps w) = Some v /\
      count is_embed (events_since w (serve steps w)) = 0 /\
      count is_file_read (events_since w (serve steps w)) = 0) /\
  (forall pages files d docs splits vs,
      vector_store_cache w = None ->
      path_exists E data_folder = true ->
      listdir E data_folder = Success files ->
      (forall f, In f files -> is_pdf f = true ->
                 pdf_load E (path_join data_folder f) = Success (pages f)) ->
      flat_map pages (filter is_pdf files) = d :: docs ->
      split_documents E (d :: docs) = Success splits ->
      from_documents E splits = Success vs ->
      get_vector_store E w
      = (Ret (Some vs),
         set_vector_store_cache (Some vs)
           (append_events
              ([EvPathExists data_folder; EvListdir data_folder] ++
               map (fun f => EvLoadPdf (path_join data_folder f))
                   (filter is_pdf files) ++
               [EvSplit (d :: docs); EvEmbed splits]) w))) /\
  count is_embed (trace (serve steps initial_world)) <= 1.
Proof.
  split; [|split; [|split]].
  - destruct (vector_store_cache w) as [v|] eqn:Hv.
    + exists v. now rewrite (get_vector_store_hit E w Hv).
    + destruct (get_vector_store_miss E w Hv) as (v & evs & _ & Hg & _).
      exists v. now rewrite Hg.
  - intros v Hv. split; [now apply get_vector_store_hit|].
    destruct (serve_hit steps w Hv) as [(evs & Ht & Hp) Hc].
    split; [exact Hc|].
    rewrite (events_since_app w (serve steps w) evs Ht).
    now apply page_event_counts.
  - intros pages files d docs splits vs Hv Hp Hl Hload Hd Hs Hb.
    unfold get_vector_store, cache_resource. rewrite Hv.
    now rewrite (body_ok E pages w Hp Hl Hload Hd Hs Hb).
  - apply serve_built. split; [cbv; lia | reflexivity].
Qed.

Lemma index_built_once_witness :
  let steps := [ (Sample.env_broken_pdf, no_inputs);
                 (Startup.env_no_folder, Startup.submit "Which plans are there?");
                 (Sample.env_web, Startup.clear) ] in
  vector_store_cache (serve steps (Demo.busy Demo.store_ok))
  = Some (Some Demo.store_ok) /\
  count is_embed
    (events_since (Demo.busy Demo.store_ok)
       (serve steps (Demo.busy Demo.store_ok))) = 0 /\
  count is_file_read
    (events_since (Demo.busy Demo.store_ok)
       (serve steps (Demo.busy Demo.store_ok))) = 0.
Proof.
  cbv zeta.
  apply (proj1 (proj2
    (index_built_once Sample.env_web (Demo.busy Demo.store_ok)
       [ (Sample.env_broken_pdf, no_inputs);
         (Startup.env_no_folder, Startup.submit "Which plans are there?");
         (Sample.env_web, Startup.clear) ]))
    (Some Demo.store_ok) eq_refl).
Defined.

Example first_run_builds_then_reuses :
  let steps := [ (Sample.env_web, no_inputs);
                 (Sample.env_broken_pdf, Startup.submit "Any roaming packs?");
                 (Startup.env_no_folder, no_inputs) ] in
  count is_embed (trace (serve steps initial_world)) = 1 /\
  count is_file_read (trace (serve steps initial_world)) = 3.
Proof. vm_compute. split; reflexivity. Qed.

(** ** Submissions *)

Lemma script_submit (E : Env) u vs ms w :
  keys_present E = true ->
  vector_store_cache w = Some (Some vs) ->
  messages w = Some ms ->
  truthy u = true ->
  let human := {| role := "human"; content := u |} in
  let w1 := set_messages (ms ++ [human])
              (append_events
                 (top_events ++ map UiChatMessage ms ++
                  [chat_box; UiChatMessage human; UiChatOpen "ai";
                   UiSpinner "Thinking..."]) w) in
  script E (Startup.submit u) w
  = match generate_answer E u vs (ms ++ [human]) w1 with
    | (Ret response_text, w') =>
        let ai := {| role := "ai"; content := response_text |} in
        (Ret tt, set_messages (ms ++ [human; ai]) (log (UiWrite response_text) w'))
    | (Raise e, w') => (Raise e, w')
    end.
Proof.
  intros Hk Hv Hm Ht human w1.
  rewrite script_eq, (page_top_plain E (Startup.submit u) w Hk eq_refl).
  rewrite (get_vector_store_hit E (append_events top_events w) Hv).
  assert (Hw1 : w1 = set_messages (ms ++ [human])
            (append_events
               (map UiChatMessage ms ++
                [chat_box; UiChatMessage human; UiChatOpen "ai";
                 UiSpinner "Thinking..."])
               (append_events top_events w))).
  { unfold w1. rewrite append_events_append. reflexivity. }
  destruct (generate_answer E u vs (ms ++ [human]) w1) as [r w'] eqn:Hg.
  rewrite Hw1 in Hg.
  rewrite (@chat_surface_submit E (Startup.submit u) vs
             (append_events top_events w) ms u r w' eq_refl Ht Hm Hg).
  - reflexivity.
  - pose proof (generate_answer_keeps_messages E u vs (ms ++ [human])
                  (set_messages (ms ++ [human])
                     (append_events
                        (map UiChatMessage ms ++
                         [chat_box; UiChatMessage human; UiChatOpen "ai";
                          UiSpinner "Thinking..."])
                        (append_events top_events w)))) as Hkeep.
    rewrite Hg in Hkeep. exact Hkeep.
Qed.

(** When the retrieval succeeds a submission appends exactly two messages,
    the question and then the answer, and the page shows the history in
    order. *)
Lemma submission_appends_two (E : Env) u vs ms docs w :
  keys_present E = true ->
  vector_store_cache w = Some (Some vs) ->
  messages w = Some ms ->
  truthy u = true ->
  similarity_search vs u 3 = Success docs ->
  exists response_text,
    let out := interaction E (Startup.submit u) w in
    let new := [ {| role := "human"; content := u |};
                 {| role := "ai"; content := response_text |} ] in
    fst out = Ret tt /\
    messages (snd out) = Some (ms ++ new)%list /\
    rendered (events_since w (snd out)) = (ms ++ new)%list.
Proof.
  intros Hk Hv Hm Ht Hs. unfold interaction.
  rewrite (@script_submit E u vs ms w Hk Hv Hm Ht). cbv zeta.
  set (human := {| role := "human"; content := u |}).
  set (w1 := set_messages _ _).
  destruct (generate_answer_returns E u vs (ms ++ [human])%list w1 Hs)
    as [s Hret].
  destruct (@generate_answer_framed E query_event _ messages
              (fun _ _ => eq_refl) (fun _ _ => eq_refl) (fun _ H => H)
              u vs (ms ++ [human])%list w1) as [(evs & Htr & Hq) _].
  destruct (generate_answer E u vs (ms ++ [human]) w1) as [r w'].
  cbn [fst snd] in *. subst r.
  exists s. cbn [fst snd]. split; [reflexivity|]. split; [reflexivity|].
  assert (Hsil : forallb silent (UiSpinner "Thinking..." :: evs) = true).
  { cbn. revert Hq. apply forallb_impl. now intros []. }
  rewrite (events_since_app w _
             (top_events ++ map UiChatMessage ms ++
              [chat_box; UiChatMessage human] ++
              UiChatOpen "ai" :: (UiSpinner "Thinking..." :: evs) ++ [UiWrite s])%list).
  - rewrite !rendered_app by no_open.
    rewrite (rendered_open "ai" _ [UiWrite s] Hsil), rendered_map. cbn.
    reflexivity.
  - cbn [trace set_messages log]. rewrite Htr. unfold w1.
    cbn [trace set_messages append_events]. rewrite <- !app_assoc.
    reflexivity.
Qed.

(** When the retrieval raises, the question has been stored already and
    the answer never is. *)
Lemma submission_retrieval_failure (E : Env) u vs ms msg w :
  keys_present E = true ->
  vector_store_cache w = Some (Some vs) ->
  messages w = Some ms ->
  truthy u = true ->
  similarity_search vs u 3 = Failure msg ->
  let out := interaction E (Startup.submit u) w in
  fst out = Raise (PyException msg) /\
  messages (snd out) = Some (ms ++ [{| role := "human"; content := u |}])%list.
Proof.
  intros Hk Hv Hm Ht Hs. cbv zeta. unfold interaction.
  rewrite (@script_submit E u vs ms w Hk Hv Hm Ht). cbv zeta.
  set (human := {| role := "human"; content := u |}).
  set (w1 := set_messages _ _).
  destruct (get_working_model_name_returns E w1) as (n & w2 & Hn & Hms & _).
  rewrite (generate_answer_eq E u vs (ms ++ [human])%list w1 Hn).
  cbv zeta. rewrite Hs. cbn [fst snd]. split; [reflexivity|].
  cbn [messages log]. rewrite Hms. reflexivity.
Qed.

(** C7 fails on a submission whose retrieval raises: the exception leaves
    the script after the question was stored and the answer's bubble was
    opened; the history has grown by one message, not two, and the page
    shows the stored messages followed by an empty assistant bubble. *)
Theorem submission_grows_by_one_on_search_failure :
  let w := Demo.busy Demo.store_down in
  let out := interaction Sample.env_search_down
               (Startup.submit "What is the price of the 10GB package?") w in
  fst out = Raise (PyException "embedding backend unavailable") /\
  messages (snd out)
  = Some [ greeting;
           {| role := "human"; content := "hi" |};
           {| role := "ai"; content := "How can I help?" |};
           {| role := "human"; content := "What is the price of the 10GB package?" |} ] /\
  rendered (events_since w (snd out))
  = [ greeting;
      {| role := "human"; content := "hi" |};
      {| role := "ai"; content := "How can I help?" |};
      {| role := "human"; content := "What is the price of the 10GB package?" |};
      {| role := "ai"; content := "" |} ].
Proof. vm_compute. repeat split. Qed.

Example submission_sample :
  let w := Demo.busy Demo.store_ok in
  let out := interaction Sample.env_search_down
               (Startup.submit "What is the price of the 10GB package?") w in
  fst out = Ret tt /\
  messages (snd out)
  = Some [ greeting;
           {| role := "human"; content := "hi" |};
           {| role := "ai"; content := "How can I help?" |};
           {| role := "human"; content := "What is the price of the 10GB package?" |};
           {| role := "ai"; content := "The 10GB package costs 1000 LKR." |} ].
Proof. vm_compute. split; reflexivity. Qed.

(** * Further properties *)

(** ** The choice of the model *)

Lemma pick_model_find (models : list ModelInfo) :
  pick_model models = option_map name (find qualifies models).
Proof.
  induction models as [|m rest IH]; [reflexivity|].
  cbn [pick_model find]. unfold qualifies at 1.
  destruct (existsb (String.eqb "generateContent")
              (supported_generation_methods m)); cbn [andb]; [|exact IH].
  destruct (str_in "flash" (name m) || str_in "pro" (name m)); [reflexivity|].
  exact IH.
Qed.

(** X1: with its slot empty, [get_working_model_name] lists the models
    once and returns the name of the first model yielded that supports
    generateContent and has flash or pro in its name; when none does it
    returns models/gemini-1.5-flash if the listing ended and
    models/gemini-pro if the listing raised; the slot holds the result. *)
Theorem model_name_choice (E : Env) (w : World) :
  model_name_cache w = None ->
  let chosen :=
    match find qualifies (fst (list_models E (trace w))) with
    | Some m => name m
    | None => default_model (snd (list_models E (trace w)))
    end in
  get_working_model_name E w
  = (Ret chosen, set_model_name_cache chosen (log EvListModels w)) /\
  (forall m, find qualifies (fst (list_models E (trace w))) = Some m ->
     In m (fst (list_models E (trace w))) /\
     In "generateContent" (supported_generation_methods m) /\
     (str_in "flash" (name m) = true \/ str_in "pro" (name m) = true)).
Proof.
  intros Hc. cbv zeta. split.
  - unfold get_working_model_name, cache_resource. rewrite Hc.
    unfold get_working_model_name_body.
    destruct (list_models E (trace w)) as [ys f]. cbn [fst snd].
    rewrite pick_model_find.
    destruct (find qualifies ys) as [m|]; cbn [option_map]; [reflexivity|].
    destruct f; reflexivity.
  - intros m Hm. apply find_some in Hm as [Hin Hq]. split; [exact Hin|].
    unfold qualifies in Hq. apply andb_true_iff in Hq as [H1 H2].
    split.
    + apply existsb_exists in H1 as (x & Hx & Heq).
      apply String.eqb_eq in Heq. now subst x.
    + now apply orb_true_iff in H2.
Qed.

Lemma model_name_choice_witness :
  get_working_model_name Extra.env_listing_breaks initial_world
  = (Ret "models/gemini-pro",
     set_model_name_cache "models/gemini-pro" (log EvListModels initial_world)).
Proof.
  exact (proj1 (@model_name_choice Extra.env_listing_breaks initial_world
                  eq_refl)).
Defined.

Example model_name_first_match :
  pick_model [Demo.embedder; Extra.pro_old; Demo.flash]
  = Some "models/gemini-1.0-pro".
Proof. reflexivity. Qed.

(** ** What one query costs *)

Lemma forallb_count_length p (evs : list Event) :
  forallb p evs = true -> count p evs = length evs.
Proof.
  unfold count. induction evs as [|ev evs IH]; simpl; [reflexivity|].
  intros H. apply andb_true_iff in H as [H1 H2]. rewrite H1. simpl.
  now rewrite IH.
Qed.

Lemma answer_stage_cost (E : Env) m p w :
  exists evs,
    trace (snd (answer_stage E m p w)) = (trace w ++ evs)%list /\
    forallb is_generate evs = true /\
    1 <= length evs <= 2.
Proof.
  rewrite answer_stage_eq. cbv zeta.
  destruct (generate_content E (trace w) m p).
  - exists [EvGenerate m p]. repeat split; simpl; lia.
  - destruct (generate_content E _ secondary_model p);
      exists [EvGenerate m p; EvGenerate secondary_model p];
      (split; [simpl; now rewrite <- app_assoc | repeat split; simpl; lia]).
Qed.

Lemma web_fallback_cost (E : Env) q model w :
  exists evs,
    trace (snd (web_fallback E q model w)) = (trace w ++ evs)%list /\
    count is_tavily evs = 1 /\
    count is_generate evs <= 1 /\
    count is_search evs = 0 /\
    count is_list_models evs = 0.
Proof.
  rewrite web_fallback_eq. cbv zeta.
  destruct (tavily_invoke E _ q 3) as [wr|].
  - destruct (generate_content E _ model (web_prompt wr q)).
    + exists [checking_online; EvTavily q 3;
              EvGenerate model (web_prompt wr q); UiStatusEmpty].
      split; [simpl; now rewrite <- !app_assoc | repeat split; cbv; lia].
    + exists [checking_online; EvTavily q 3;
              EvGenerate model (web_prompt wr q)].
      split; [simpl; now rewrite <- !app_assoc | repeat split; cbv; lia].
  - exists [checking_online; EvTavily q 3].
    split; [simpl; now rewrite <- !app_assoc | repeat split; cbv; lia].
Qed.

Lemma generate_answer_counts (E : Env) q vs h w :
  let evs := events_since w (snd (generate_answer E q vs h w)) in
  count is_search evs = 1 /\
  count is_generate evs <= 3 /\
  count is_tavily evs <= 1 /\
  count is_list_models evs <= 1 /\
  count is_tavily evs <= count is_generate evs /\
  (forall msg, similarity_search vs q 3 = Failure msg ->
     count is_generate evs = 0 /\ count is_tavily evs = 0).
Proof.
  cbv zeta.
  destruct (get_working_model_name_returns E w)
    as (n & w1 & Hn & _ & _ & Htr1).
  rewrite (generate_answer_eq E q vs h w Hn). cbv zeta.
  set (w2 := log (EvSimilaritySearch q 3) w1).
  assert (Hpre : exists pre, trace w2 = (trace w ++ pre)%list /\
            count is_search pre = 1 /\ count is_generate pre = 0 /\
            count is_tavily pre = 0 /\ count is_list_models pre <= 1).
  { unfold w2. rewrite trace_log. destruct Htr1 as [H|H]; rewrite H.
    - exists [EvSimilaritySearch q 3]. repeat split. cbv; lia.
    - exists [EvListModels; EvSimilaritySearch q 3].
      rewrite <- app_assoc. repeat split. cbv; lia. }
  destruct Hpre as (pre & Htr2 & Hs & Hg & Ht & Hl).
  destruct (similarity_search vs q 3) as [docs|msg].
  2:{ cbn [snd]. rewrite (events_since_app w w2 pre Htr2).
      rewrite Hs, Hg, Ht. repeat split; try lia. }
  set (p := pdf_prompt (join (nl ++ nl) (map page_content docs)) q).
  destruct (answer_stage_cost E n p w2) as (evs & Htr3 & Hall & Hlen).
  pose proof (forallb_count_length _ _ Hall) as Hcg.
  assert (Hct : count is_tavily evs = 0).
  { revert Hall. apply count_zero. now intros []. }
  assert (Hcs : count is_search evs = 0).
  { revert Hall. apply count_zero. now intros []. }
  assert (Hcl : count is_list_models evs = 0).
  { revert Hall. apply count_zero. now intros []. }
  assert (Hdone : forall w3, trace w3 = (trace w2 ++ evs)%list ->
            let e := events_since w w3 in
            count is_search e = 1 /\ count is_generate e <= 3 /\
            count is_tavily e <= 1 /\ count is_list_models e <= 1 /\
            count is_tavily e <= count is_generate e /\
            (forall msg : string, Success docs = Failure msg ->
               count is_generate e = 0 /\ count is_tavily e = 0)).
  { intros w3 H3. cbv zeta.
    rewrite (events_since_app w w3 (pre ++ evs)%list)
      by (now rewrite H3, Htr2, app_assoc).
    rewrite !count_app, Hs, Hg, Ht, Hcg, Hct, Hcs, Hcl.
    repeat split; try lia; discriminate. }
  destruct (answer_stage E n p w2) as [[[err|[answer model]]|e] w3];
    cbn [snd] in Htr3; try (now apply Hdone).
  destruct (str_in sentinel answer); [|now apply Hdone].
  destruct (web_fallback_cost E q model w3)
    as (evs' & Htr4 & Ht' & Hg' & Hs' & Hl').
  rewrite (events_since_app w _ (pre ++ evs ++ evs')%list)
    by (now rewrite Htr4, Htr3, Htr2, <- !app_assoc).
  rewrite !count_app, Hs, Hg, Ht, Hcg, Hct, Hcs, Hcl, Ht', Hs', Hl'.
  repeat split; try lia; discriminate.
Qed.

Lemma generate_before_tavily (p0 : list Event) (g : Event)
    (rest before : list Event) (x : Event) (after : list Event) :
  existsb is_tavily p0 = false -> is_generate g = true ->
  is_tavily x = true ->
  (p0 ++ g :: rest)%list = (before ++ x :: after)%list ->
  existsb is_generate before = true.
Proof.
  intros Hp Hg Hx. revert before.
  induction p0 as [|e p0 IH]; intros before Heq.
  - destruct before as [|b before]; cbn in Heq.
    + injection Heq as -> _. destruct x; discriminate.
    + injection Heq as <- _. cbn. now rewrite Hg.
  - cbn in Hp. apply orb_false_iff in Hp as [He Hp].
    destruct before as [|b before]; cbn in Heq.
    + injection Heq as -> _. congruence.
    + injection Heq as <- Heq. cbn. rewrite (IH Hp before Heq).
      apply orb_true_r.
Qed.

(** X2: one call of [generate_answer] makes exactly one similarity search,
    at most three model invocations, at most one web search and at most
    one listing of the models; it makes no model invocation at all when
    the search raises; and wherever a web search stands in the log of the
    call, a model invocation stands before it. *)
Theorem generate_answer_call_budget (E : Env) q vs h w :
  let evs := events_since w (snd (generate_answer E q vs h w)) in
  count is_search evs = 1 /\
  count is_generate evs <= 3 /\
  count is_tavily evs <= 1 /\
  count is_list_models evs <= 1 /\
  (forall before query k after,
     evs = (before ++ EvTavily query k :: after)%list ->
     existsb is_generate before = true) /\
  (forall msg, similarity_search vs q 3 = Failure msg ->
     count is_generate evs = 0 /\ count is_tavily evs = 0).
Proof.
  cbv zeta.
  destruct (generate_answer_counts E q vs h w)
    as (Hs & Hg & Ht & Hl & _ & Hfail).
  repeat (split; [assumption|]). split; [|exact Hfail].
  intros before query k after Heq.
  destruct (similarity_search vs q 3) as [docs|msg] eqn:Hsearch.
  - destruct (generate_answer_trace E q vs h w Hsearch)
      as (n & pre & rest & Hpre & Htr).
    rewrite Heq in Htr.
    apply (@generate_before_tavily (pre ++ [EvSimilaritySearch q 3])
             (EvGenerate n
                (pdf_prompt (join (nl ++ nl) (map page_content docs)) q))
             rest before (EvTavily query k) after).
    + destruct Hpre as [-> | ->]; reflexivity.
    + reflexivity.
    + reflexivity.
    + rewrite Htr, <- app_assoc. reflexivity.
  - destruct (Hfail msg eq_refl) as [_ H0]. rewrite Heq in H0.
    rewrite count_app in H0. unfold count at 2 in H0. cbn in H0. lia.
Qed.

Lemma generate_answer_call_budget_witness :
  existsb is_generate
    [ EvListModels;
      EvSimilaritySearch Sample.roaming_question 3;
      EvGenerate Sample.flash_name (Sample.prompt_for Sample.roaming_question);
      checking_online ] = true.
Proof.
  apply (proj1 (proj2 (proj2 (proj2 (proj2
           (generate_answer_call_budget Sample.env_web Sample.roaming_question
              Demo.store_ok [] initial_world)))))
           _ Sample.roaming_question 3
           [ EvGenerate Sample.flash_name
               (web_prompt "[{'url': 'https://example.lk', 'content': 'Roaming pack 990 LKR'}]"
                           Sample.roaming_question);
             UiStatusEmpty ]).
  vm_compute. reflexivity.
Defined.

(** X3: when the primary model fails and the secondary one answers with
    the sentinel, the web prompt goes to the secondary model, the one whose
    answer is being replaced, after exactly one web search. *)
Theorem fallback_uses_answering_model (E : Env) q vs h w
    model_name w1 docs msg1 answer web_results :
  get_working_model_name E w = (Ret model_name, w1) ->
  similarity_search vs q 3 = Success docs ->
  let prompt := pdf_prompt (join (nl ++ nl) (map page_content docs)) q in
  let w2 := log (EvSimilaritySearch q 3) w1 in
  let w3 := log (EvGenerate model_name prompt) w2 in
  let w4 := log (EvGenerate secondary_model prompt) w3 in
  let w5 := log checking_online w4 in
  generate_content E (trace w2) model_name prompt = Failure msg1 ->
  generate_content E (trace w3) secondary_model prompt = Success answer ->
  str_in sentinel answer = true ->
  tavily_invoke E (trace w5) q 3 = Success web_results ->
  exists tail,
    events_since w1 (snd (generate_answer E q vs h w))
    = ([ EvSimilaritySearch q 3;
         EvGenerate model_name prompt;
         EvGenerate secondary_model prompt;
         checking_online;
         EvTavily q 3;
         EvGenerate secondary_model (web_prompt web_results q) ] ++ tail)%list /\
    (tail = [] \/ tail = [UiStatusEmpty]).
Proof.
  intros Hn Hs prompt w2 w3 w4 w5 H1 H2 Hsent Ht.
  rewrite (generate_answer_eq E q vs h w Hn). cbv zeta. rewrite Hs.
  fold prompt. fold w2. rewrite answer_stage_eq. cbv zeta.
  rewrite H1. fold w3. rewrite H2, Hsent.
  fold w4. rewrite web_fallback_eq. cbv zeta. fold w5. rewrite Ht.
  destruct (generate_content E _ secondary_model (web_prompt web_results q));
    cbn [snd].
  - exists [UiStatusEmpty]. split; [|now right].
    apply events_since_app. unfold w5, w4, w3, w2.
    rewrite !trace_log, <- !app_assoc. reflexivity.
  - exists []. split; [|now left].
    apply events_since_app. unfold w5, w4, w3, w2.
    rewrite !trace_log, <- !app_assoc. reflexivity.
Qed.

Lemma fallback_uses_answering_model_witness :
  exists tail,
    events_since (Sample.after_name Extra.env_secondary_only)
      (snd (generate_answer Extra.env_secondary_only Sample.roaming_question
              Demo.store_ok [] initial_world))
    = ([ EvSimilaritySearch Sample.roaming_question 3;
         EvGenerate Sample.flash_name (Sample.prompt_for Sample.roaming_question);
         EvGenerate secondary_model (Sample.prompt_for Sample.roaming_question);
         checking_online;
         EvTavily Sample.roaming_question 3;
         EvGenerate secondary_model
           (web_prompt "[{'url': 'https://example.lk', 'content': 'Roaming pack 990 LKR'}]"
                       Sample.roaming_question) ] ++ tail)%list /\
    (tail = [] \/ tail = [UiStatusEmpty]).
Proof.
  exact (@fallback_uses_answering_model Extra.env_secondary_only
           Sample.roaming_question Demo.store_ok [] initial_world
           Sample.flash_name (Sample.after_name Extra.env_secondary_only)
           (Sample.docs_for Sample.roaming_question)
           "404 model not found" "NOT_FOUND"
           "[{'url': 'https://example.lk', 'content': 'Roaming pack 990 LKR'}]"
           eq_refl eq_refl eq_refl eq_refl eq_refl eq_refl).
Defined.

(** ** Which files are read *)

Lemma string_length_app (a b : string) :
  String.length (a ++ b) = String.length a + String.length b.
Proof. induction a as [|c a IH]; simpl; [reflexivity | now rewrite IH]. Qed.

Lemma substring_whole (s : string) : substring 0 (String.length s) s = s.
Proof. induction s as [|c s IH]; simpl; [reflexivity | now rewrite IH]. Qed.

Lemma substring_skip (pre s : string) (m : nat) :
  substring (String.length pre) m (pre ++ s) = substring 0 m s.
Proof. induction pre as [|c pre IH]; simpl; [reflexivity | exact IH]. Qed.

Lemma substring_split (s : string) (n : nat) :
  n <= String.length s ->
  s = substring 0 n s ++ substring n (String.length s - n) s.
Proof.
  revert n. induction s as [|c s IH]; intros [|n] Hn; simpl in *.
  - reflexivity.
  - lia.
  - now rewrite substring_whole.
  - rewrite <- IH by lia. reflexivity.
Qed.

(** [endswith] is Python's suffix test. *)
Lemma endswith_spec (s suffix : string) :
  endswith s suffix = true <-> exists stem, s = stem ++ suffix.
Proof.
  unfold endswith. split.
  - intros H. apply andb_true_iff in H as [Hle Heq].
    apply Nat.leb_le in Hle. apply String.eqb_eq in Heq.
    exists (substring 0 (String.length s - String.length suffix) s).
    pose proof (@substring_split s (String.length s - String.length suffix))
      as Hsp.
    replace (String.length s - (String.length s - String.length suffix))
      with (String.length suffix) in Hsp by lia.
    rewrite Heq in Hsp. apply Hsp. lia.
  - intros [stem ->]. rewrite string_length_app.
    apply andb_true_iff. split; [apply Nat.leb_le; lia|].
    replace (String.length stem + String.length suffix - String.length suffix)
      with (String.length stem) by lia.
    rewrite substring_skip, substring_whole. apply String.eqb_refl.
Qed.

Lemma load_all_reads (E : Env) files docs w :
  exists r evs,
    load_all E files docs w = (r, append_events evs w) /\
    Forall (fun ev => exists f, In f files /\ is_pdf f = true /\
                                ev = load_event f) evs.
Proof.
  revert docs w. induction files as [|file files IH]; intros docs w.
  - exists (Ret docs), []. cbn. unfold ret. now rewrite append_events_nil.
  - cbn [load_all]. change (endswith file ".pdf") with (is_pdf file).
    destruct (is_pdf file) eqn:Hf.
    + unfold bind, call.
      destruct (pdf_load E (path_join data_folder file)) as [pages|msg];
        cbn [lift_ext].
      * destruct (IH (docs ++ pages)%list
                     (log (EvLoadPdf (path_join data_folder file)) w))
          as (r & evs & Heq & Hall).
        exists r, (load_event file :: evs). split.
        -- rewrite Heq, log_as_append, append_events_append. reflexivity.
        -- constructor.
           ++ exists file. split; [now left | split; [exact Hf | reflexivity]].
           ++ eapply Forall_impl; [|exact Hall].
              intros ev (f & Hin & Hp & ->). exists f.
              split; [now right | split; [exact Hp | reflexivity]].
      * exists (Raise (PyException msg)), [load_event file]. split.
        -- reflexivity.
        -- constructor; [|constructor]. exists file.
           split; [now left | split; [exact Hf | reflexivity]].
    + destruct (IH docs w) as (r & evs & Heq & Hall).
      exists r, evs. split; [exact Heq|].
      eapply Forall_impl; [|exact Hall].
      intros ev (f & Hin & Hp & ->). exists f.
      split; [now right | split; [exact Hp | reflexivity]].
Qed.

(** X4: the only files [get_vector_store] reads are files listed in the
    folder whose name ends in ".pdf", in lower case: every read in the log
    is of data/stem.pdf for a listed name stem.pdf. *)
Theorem only_listed_pdfs_are_read (E : Env) (w : World) (path : string) :
  In (EvLoadPdf path) (events_since w (snd (get_vector_store E w))) ->
  exists files stem,
    listdir E data_folder = Success files /\
    In (stem ++ ".pdf") files /\
    path = "data/" ++ stem ++ ".pdf".
Proof.
  unfold get_vector_store, cache_resource.
  destruct (vector_store_cache w).
  { cbn [snd]. rewrite events_since_refl. contradiction. }
  assert (Hgoal : forall files evs tail,
            listdir E data_folder = Success files ->
            Forall (fun ev => exists f, In f files /\ is_pdf f = true /\
                                        ev = load_event f) evs ->
            Forall (fun ev => is_load ev = false) tail ->
            In (EvLoadPdf path)
               ([EvPathExists data_folder; EvListdir data_folder]
                ++ evs ++ tail)%list ->
            exists files stem,
              listdir E data_folder = Success files /\
              In (stem ++ ".pdf") files /\
              path = "data/" ++ stem ++ ".pdf").
  { intros files evs tail Hl Hall Htail Hin.
    cbn [app] in Hin. destruct Hin as [Hin|[Hin|Hin]]; try discriminate.
    apply in_app_or in Hin as [Hin|Hin].
    - apply (proj1 (Forall_forall _ _) Hall) in Hin as (f & Hf & Hp & Heq).
      apply endswith_spec in Hp as [stem ->].
      exists files, stem. repeat split; auto.
      unfold load_event in Heq. now injection Heq as ->.
    - apply (proj1 (Forall_forall _ _) Htail) in Hin. discriminate. }
  unfold get_vector_store_body, bind at 1, call at 1. cbn [lift_ext].
  destruct (path_exists E data_folder); cbn [negb].
  2:{ unfold bind, emit, ret. cbn [snd fst].
      rewrite (events_since_app w _
                 [EvPathExists data_folder; folder_error])
        by (cbn; now rewrite <- app_assoc).
      intros [H|[H|[]]]; discriminate. }
  unfold try_except_Exception, bind at 1, call at 1.
  destruct (listdir E data_folder) as [files|msg] eqn:Hl;
    cbn [lift_ext is_Exception].
  2:{ unfold bind, emit, ret. cbn [snd fst].
      rewrite (events_since_app w _
                 [EvPathExists data_folder; EvListdir data_folder;
                  UiError ("Error loading PDFs: " ++ msg)])
        by (cbn; now rewrite <- !app_assoc).
      intros [H|[H|[H|[]]]]; discriminate. }
  unfold bind at 1.
  destruct (load_all_reads E files []
              (log (EvListdir data_folder) (log (EvPathExists data_folder) w)))
    as (r & evs & Heq & Hall).
  rewrite Heq.
  rewrite (log_as_append (EvPathExists _)), log_as_append,
          !append_events_append.
  match goal with
  | |- _ -> ?G =>
      assert (Hfin : forall w' tail,
                trace w' = (trace w ++ [EvPathExists data_folder;
                                        EvListdir data_folder]
                              ++ evs ++ tail)%list ->
                Forall (fun ev => is_load ev = false) tail ->
                In (EvLoadPdf path) (events_since w w') -> G)
  end.
  { intros w' tail Htr Htail Hin.
    rewrite (events_since_app w w' _ Htr) in Hin.
    exact (Hgoal files evs tail eq_refl Hall Htail Hin). }
  destruct r as [docs|e].
  - destruct docs as [|d docs].
    + unfold bind, emit, ret. rewrite log_append_events. cbn [snd fst].
      apply (Hfin _ [no_pdf_error]); [|repeat constructor].
      cbn [trace append_events set_vector_store_cache app];
      rewrite <- ?app_assoc; cbn [app]; reflexivity.
    + unfold bind at 1, call at 1.
      destruct (split_documents E (d :: docs)) as [splits|msg];
        cbn [lift_ext is_Exception].
      * unfold bind at 1, call at 1.
        destruct (from_documents E splits) as [vs|msg];
          cbn [lift_ext is_Exception].
        -- unfold ret. rewrite !log_append_events. cbn [snd fst].
           apply (Hfin _ [EvSplit (d :: docs); EvEmbed splits]);
             [|repeat constructor].
           cbn [trace append_events set_vector_store_cache app];
      rewrite <- ?app_assoc; cbn [app]; reflexivity.
        -- unfold bind, emit, ret. rewrite !log_append_events.
           cbn [snd fst].
           apply (Hfin _ [EvSplit (d :: docs); EvEmbed splits;
                          UiError ("Error loading PDFs: " ++ msg)]);
             [|repeat constructor].
           cbn [trace append_events set_vector_store_cache app];
      rewrite <- ?app_assoc; cbn [app]; reflexivity.
      * unfold bind, emit, ret. rewrite !log_append_events. cbn [snd fst].
        apply (Hfin _ [EvSplit (d :: docs);
                       UiError ("Error loading PDFs: " ++ msg)]);
          [|repeat constructor].
        cbn [trace append_events set_vector_store_cache app];
      rewrite <- ?app_assoc; cbn [app]; reflexivity.
  - destruct (is_Exception e).
    + unfold bind, emit, ret. rewrite log_append_events. cbn [snd fst].
      apply (Hfin _ [UiError ("Error loading PDFs: " ++ str_exn e)]);
        [|repeat constructor].
      cbn [trace append_events set_vector_store_cache app];
      rewrite <- ?app_assoc; cbn [app]; reflexivity.
    + cbn [snd fst]. apply (Hfin _ []); [|constructor].
      cbn [trace append_events set_vector_store_cache app];
      rewrite <- ?app_assoc, ?app_nil_r; cbn [app]; reflexivity.
Qed.

Lemma only_listed_pdfs_are_read_witness :
  exists files stem,
    listdir Sample.env_web data_folder = Success files /\
    In (stem ++ ".pdf") files /\
    "data/packages.pdf" = "data/" ++ stem ++ ".pdf".
Proof.
  apply (@only_listed_pdfs_are_read Sample.env_web initial_world
           "data/packages.pdf").
  vm_compute. do 2 right. left. reflexivity.
Defined.

(** X5: one PDF that fails to load aborts the whole build: the files
    listed after it are not read, the pages already read are dropped, and
    [get_vector_store] returns None after showing "Error loading PDFs: "
    with the failure's message; neither the splitter nor the index builder
    is called. *)
Theorem first_broken_pdf_aborts (E : Env) (pages : string -> list Document)
    before file after msg w :
  vector_store_cache w = None ->
  path_exists E data_folder = true ->
  listdir E data_folder = Success (before ++ file :: after)%list ->
  (forall f, In f before -> is_pdf f = true ->
             pdf_load E (path_join data_folder f) = Success (pages f)) ->
  is_pdf file = true ->
  pdf_load E (path_join data_folder file) = Failure msg ->
  get_vector_store E w
  = (Ret None,
     set_vector_store_cache None
       (append_events
          ([EvPathExists data_folder; EvListdir data_folder] ++
           map load_event (filter is_pdf before) ++
           [load_event file; UiError ("Error loading PDFs: " ++ msg)]) w)).
Proof.
  intros Hc Hp Hl Hb Hf Hload.
  unfold get_vector_store, cache_resource. rewrite Hc.
  unfold get_vector_store_body, bind at 1, call at 1. cbn [lift_ext].
  rewrite Hp. cbn [negb].
  unfold try_except_Exception, bind at 1, call at 1. rewrite Hl.
  cbn [lift_ext]. unfold bind at 1.
  rewrite (load_all_stops E pages before file after [] _ Hb Hf Hload).
  cbn [is_Exception]. unfold bind, emit, ret. cbn [str_exn].
  rewrite !log_as_append, !append_events_append.
  rewrite <- !app_assoc. reflexivity.
Qed.

Lemma first_broken_pdf_aborts_witness :
  get_vector_store Extra.env_first_pdf_broken initial_world
  = (Ret None,
     set_vector_store_cache None
       (append_events
          [ EvPathExists "data"; EvListdir "data"; EvLoadPdf "data/a.pdf";
            UiError "Error loading PDFs: EOF marker not found" ]
          initial_world)).
Proof.
  apply (@first_broken_pdf_aborts Extra.env_first_pdf_broken
           (fun _ => Demo.guide) [] "a.pdf" ["notes.txt"; "b.pdf"]
           "EOF marker not found" initial_world);
    try reflexivity.
  intros f [].
Defined.

(** ** A failed build stays *)

(** X6: once [get_vector_store] has returned None, the failure is kept for
    the life of the process: whatever the folder holds later and whatever
    the user does, no interaction draws a message or the input box, and
    the build is not tried again. *)
Theorem failed_build_is_kept (steps : list (Env * Inputs)) (w : World) :
  vector_store_cache w = Some None ->
  let evs := events_since w (serve steps w) in
  vector_store_cache (serve steps w) = Some None /\
  chat_input_drawn evs = false /\
  rendered evs = [] /\
  count is_file_read evs = 0 /\
  count is_embed evs = 0.
Proof.
  intros Hv. cbv zeta.
  assert (H : extends_by not_chat_event w (serve steps w) /\
              vector_store_cache (serve steps w) = Some None).
  { revert w Hv. induction steps as [|[E inp] steps IH]; intros w Hv; simpl.
    - split; [apply extends_by_refl | exact Hv].
    - destruct (interaction_stuck E inp w Hv) as [He Hc].
      destruct (IH _ Hc) as [He' Hc'].
      split; [eapply extends_by_trans; eassumption | exact Hc']. }
  destruct H as [(evs & Htr & Hq) Hc].
  destruct (serve_hit steps w Hv) as [(evs' & Htr' & Hp) _].
  rewrite Htr in Htr'. apply app_inv_head in Htr'. subst evs'.
  rewrite (events_since_app w _ evs Htr).
  destruct (page_event_counts _ Hp) as [H1 H2].
  destruct (@rendered_nil not_chat_event evs (fun _ H => H) Hq) as [H3 H4].
  repeat split; assumption.
Qed.

Lemma failed_build_is_kept_witness :
  chat_input_drawn
    (events_since Extra.stuck
       (serve [ (Sample.env_web, no_inputs);
                (Sample.env_web, Startup.submit "Which plans are there?") ]
              Extra.stuck)) = false.
Proof.
  apply (@failed_build_is_kept
           [ (Sample.env_web, no_inputs);
             (Sample.env_web, Startup.submit "Which plans are there?") ]
           Extra.stuck eq_refl).
Defined.

(** ** The history across interactions *)

Lemma generate_answer_outcome (E : Env) q vs h w :
  (exists s, fst (generate_answer E q vs h w) = Ret s) \/
  (exists msg, fst (generate_answer E q vs h w) = Raise (PyException msg)).
Proof.
  destruct (similarity_search vs q 3) as [docs|msg] eqn:Hs.
  - left. now apply (generate_answer_returns E q vs h w Hs).
  - right. exists msg.
    destruct (get_working_model_name_returns E w) as (n & w1 & Hn & _).
    rewrite (generate_answer_eq E q vs h w Hn). cbv zeta. now rewrite Hs.
Qed.

Lemma chat_surface_unsubmitted (E : Env) inp vs w :
  truthy_opt (chat_input inp) = false ->
  chat_surface E inp vs w = chat_surface E no_inputs vs w.
Proof.
  intros H. unfold chat_surface. cbn [chat_input no_inputs].
  destruct (chat_input inp) as [u|]; [|reflexivity].
  cbn [truthy_opt] in H. rewrite H. reflexivity.
Qed.

Lemma rendered_query_events evs :
  forallb query_event evs = true -> rendered evs = [].
Proof. intros H. apply (@rendered_nil query_event evs); [now intros []|exact H]. Qed.

Lemma query_events_silent evs :
  forallb query_event evs = true -> forallb silent evs = true.
Proof. apply forallb_impl. now intros []. Qed.

(** What the chat surface stores and draws: [new] is what it appends to
    the history and [pending] the bubble it leaves open without a stored
    message. *)
Lemma chat_surface_cases (E : Env) inp vs w ms :
  messages w = Some ms ->
  let out := chat_surface E inp vs w in
  exists new pending,
    messages (snd out) = Some (ms ++ new)%list /\
    rendered (events_since w (snd out)) = (ms ++ new ++ pending)%list /\
    chat_input_drawn (events_since w (snd out)) = true /\
    ((new = [] /\ pending = [] /\ fst out = Ret tt) \/
     exists u, chat_input inp = Some u /\ truthy u = true /\
       ((new = [human u] /\ pending = [ai ""] /\
         exists msg, fst out = Raise (PyException msg)) \/
        (exists r, new = [human u; ai r] /\ pending = [] /\
                   fst out = Ret tt))).
Proof.
  intros Hm. cbv zeta.
  destruct (truthy_opt (chat_input inp)) eqn:Hi.
  - destruct (chat_input inp) as [u|] eqn:Hu; [|discriminate].
    cbn [truthy_opt] in Hi.
    set (w1 := set_messages (ms ++ [human u])
                 (append_events
                    (map UiChatMessage ms ++
                     [chat_box; UiChatMessage (human u); UiChatOpen "ai";
                      UiSpinner "Thinking..."]) w)).
    destruct (@generate_answer_framed E query_event _ messages
                (fun _ _ => eq_refl) (fun _ _ => eq_refl) (fun _ H => H)
                u vs (ms ++ [human u])%list w1) as [(evs & Htr & Hq) Hkeep].
    assert (Hsil : forallb silent (UiSpinner "Thinking..." :: evs) = true).
    { cbn. now apply query_events_silent. }
    assert (Hd : forall l,
              chat_input_drawn (map UiChatMessage ms ++ chat_box :: l)%list
              = true).
    { intros l. rewrite chat_input_drawn_app, chat_input_drawn_messages.
      reflexivity. }
    destruct (generate_answer_outcome E u vs (ms ++ [human u])%list w1)
      as [[s Hs]|[msg Hs]];
      destruct (generate_answer E u vs (ms ++ [human u]) w1) as [r w'] eqn:Hg;
      cbn [fst snd] in *; subst r;
      rewrite (@chat_surface_submit E inp vs w ms u _ w' Hu Hi Hm Hg Hkeep).
    + exists [human u; ai s], []. cbn [fst snd].
      rewrite (events_since_app w _
                 (map UiChatMessage ms ++ chat_box ::
                  [UiChatMessage (human u)] ++
                  UiChatOpen "ai" :: (UiSpinner "Thinking..." :: evs)
                  ++ [UiWrite s])%list).
      * split; [reflexivity|]. split.
        -- rewrite rendered_app by no_open. rewrite rendered_map.
           change (rendered (chat_box :: [UiChatMessage (human u)] ++
                     UiChatOpen "ai" :: (UiSpinner "Thinking..." :: evs)
                     ++ [UiWrite s])%list)
             with (human u ::
                   rendered (UiChatOpen "ai" ::
                             (UiSpinner "Thinking..." :: evs) ++ [UiWrite s])%list).
           rewrite (rendered_open "ai" _ [UiWrite s] Hsil). reflexivity.
        -- split; [apply Hd|]. right. exists u.
           split; [reflexivity|]. split; [exact Hi|].
           right. exists s. repeat split.
      * cbn [trace set_messages log]. rewrite Htr. unfold w1.
        cbn [trace set_messages append_events]. rewrite <- !app_assoc.
        reflexivity.
    + exists [human u], [ai ""]. cbn [fst snd].
      rewrite (events_since_app w _
                 (map UiChatMessage ms ++ chat_box ::
                  [UiChatMessage (human u)] ++
                  UiChatOpen "ai" :: (UiSpinner "Thinking..." :: evs)
                  ++ [])%list).
      * split; [rewrite Hkeep; reflexivity|]. split.
        -- rewrite rendered_app by no_open. rewrite rendered_map.
           change (rendered (chat_box :: [UiChatMessage (human u)] ++
                     UiChatOpen "ai" :: (UiSpinner "Thinking..." :: evs)
                     ++ [])%list)
             with (human u ::
                   rendered (UiChatOpen "ai" ::
                             (UiSpinner "Thinking..." :: evs) ++ [])%list).
           rewrite (rendered_open "ai" _ [] Hsil). reflexivity.
        -- split; [apply Hd|]. right. exists u.
           split; [reflexivity|]. split; [exact Hi|].
           left. split; [reflexivity|]. split; [reflexivity | now exists msg].
      * rewrite Htr. unfold w1.
        cbn [trace set_messages append_events].
        rewrite app_nil_r, <- !app_assoc. reflexivity.
  - rewrite (chat_surface_unsubmitted E inp vs w Hi).
    rewrite (chat_surface_idle E no_inputs vs w eq_refl). rewrite Hm.
    exists [], []. cbn [fst snd messages set_messages].
    rewrite (events_since_app w _ (map UiChatMessage ms ++ [chat_box])%list)
      by reflexivity.
    rewrite chat_input_drawn_app, chat_input_drawn_messages.
    rewrite rendered_app by no_open. rewrite rendered_map.
    cbn [rendered chat_box]. rewrite !app_nil_r.
    split; [reflexivity|]. split; [reflexivity|]. split; [reflexivity|].
    left. repeat split.
Qed.

Lemma get_vector_store_keeps (E : Env) w :
  exists v evs,
    get_vector_store E w = (Ret v, snd (get_vector_store E w)) /\
    trace (snd (get_vector_store E w)) = (trace w ++ evs)%list /\
    forallb setup_event evs = true /\
    messages (snd (get_vector_store E w)) = messages w /\
    model_name_cache (snd (get_vector_store E w)) = model_name_cache w /\
    vector_store_cache (snd (get_vector_store E w)) = Some v /\
    (forall v0, vector_store_cache w = Some v0 -> v = v0).
Proof.
  destruct (vector_store_cache w) as [v0|] eqn:Hv.
  - exists v0, []. rewrite (get_vector_store_hit E w Hv). cbn [snd].
    rewrite app_nil_r. repeat split; auto. intros v1 H. congruence.
  - destruct (get_vector_store_miss E w Hv) as (v & evs & _ & Hg & Hs & _).
    exists v, evs. rewrite Hg. cbn. repeat split; auto. discriminate.
Qed.

(** One run of the script without a click on the reset button. *)
Lemma script_unclicked (E : Env) inp w ms :
  keys_present E = true -> clear_clicked inp = false ->
  messages w = Some ms ->
  let out := script E inp w in
  exists new pending v,
    messages (snd out) = Some (ms ++ new)%list /\
    turn_shape inp new /\
    fst out <> Raise RerunException /\
    vector_store_cache (snd out) = Some v /\
    (forall v0, vector_store_cache w = Some v0 -> v = v0) /\
    match v with
    | Some _ =>
        rendered (events_since w (snd out)) = (ms ++ new ++ pending)%list
    | None => new = [] /\ rendered (events_since w (snd out)) = []
    end /\
    ((pending = [] /\ fst out = Ret tt) \/
     (pending = [ai ""] /\ exists msg, fst out = Raise (PyException msg))).
Proof.
  intros Hk Hc Hm. cbv zeta.
  rewrite script_eq, (page_top_plain E inp w Hk Hc).
  set (w1 := append_events top_events w).
  destruct (get_vector_store_keeps E w1)
    as (v & evs & Hg & Htr & Hs & Hms & _ & Hv & Hv0).
  rewrite Hg. set (w2 := snd (get_vector_store E w1)) in *.
  destruct (setup_events_plain _ Hs) as [Hr _].
  pose proof (setup_events_no_open _ Hs) as Hno.
  assert (Hm2 : messages w2 = Some ms) by (rewrite Hms; exact Hm).
  destruct v as [vs|].
  - destruct (chat_surface_cases E inp vs w2 Hm2)
      as (new & pending & Hmn & Hrn & _ & Hshape).
    assert (Hch : exists evs', trace (snd (chat_surface E inp vs w2))
                               = (trace w2 ++ evs')%list).
    { destruct (chat_surface_framed E inp vs w2) as [(e & He & _) _].
      now exists e. }
    destruct Hch as (evs' & Htr').
    rewrite (events_since_app w2 _ evs' Htr') in Hrn.
    exists new, pending, (Some vs). split; [exact Hmn|]. split.
    { destruct Hshape
        as [(-> & _)|(u & Hu & Ht & [(-> & _)|(r & -> & _)])].
      - now left.
      - right. exists u. repeat split; auto.
      - right. exists u. repeat split; auto. right. now exists r. }
    split.
    { destruct Hshape
        as [(_ & _ & ->)|(u & _ & _ & [(_ & _ & [msg ->])|(r & _ & _ & ->)])];
        discriminate. }
    split.
    { destruct (chat_surface_framed E inp vs w2) as [_ Hcc].
      rewrite Hcc. exact Hv. }
    split; [exact Hv0|]. split.
    { rewrite (events_since_app w _ (top_events ++ evs ++ evs')%list).
      + rewrite !rendered_app by no_open. now rewrite Hr, Hrn.
      + rewrite Htr', Htr. unfold w1. cbn [trace append_events].
        now rewrite <- !app_assoc. }
    destruct Hshape
      as [(_ & -> & H)|(u & _ & _ & [(_ & -> & H)|(r & _ & -> & H)])].
    + left. now split.
    + right. now split.
    + left. now split.
  - exists [], [], None. cbn [fst snd]. rewrite app_nil_r.
    split; [exact Hm2|]. split; [now left|]. split; [discriminate|].
    split; [exact Hv|]. split; [exact Hv0|]. split.
    { split; [reflexivity|].
      rewrite (events_since_app w _ (top_events ++ evs)%list).
      + rewrite rendered_app by no_open. now rewrite Hr.
      + rewrite Htr. unfold w1. cbn [trace append_events].
        now rewrite <- !app_assoc. }
    left. now split.
Qed.

(** X7: without a click on the reset button the history only grows, and
    by at most one turn per interaction: nothing stored is changed or
    dropped, and what is appended is nothing, or the submitted question,
    or the question followed by one answer. *)
Theorem history_append_only (E : Env) (inp : Inputs) (w : World)
    (ms : list Message) :
  clear_clicked inp = false ->
  messages w = Some ms ->
  exists new,
    messages (snd (interaction E inp w)) = Some (ms ++ new)%list /\
    turn_shape inp new.
Proof.
  intros Hc Hm. unfold interaction.
  destruct (keys_present E) eqn:Hk.
  - destruct (script_unclicked E inp w Hk Hc Hm)
      as (new & pending & v & Hmn & Hshape & Hnr & _).
    exists new. split; [|exact Hshape].
    destruct (script E inp w) as [[[]|e] w']; cbn [fst snd] in *;
      [exact Hmn|].
    destruct e; try exact Hmn. congruence.
  - rewrite (script_stop E inp w Hk). exists []. cbn.
    rewrite app_nil_r. split; [exact Hm | now left].
Qed.

Lemma history_append_only_witness :
  exists new,
    messages (snd (interaction Sample.env_web
                     (Startup.submit Sample.roaming_question)
                     (Demo.busy Demo.store_ok)))
    = Some ([ greeting; human "hi"; ai "How can I help?" ] ++ new)%list /\
    turn_shape (Startup.submit Sample.roaming_question) new.
Proof.
  apply (@history_append_only Sample.env_web
           (Startup.submit Sample.roaming_question)
           (Demo.busy Demo.store_ok)
           [ greeting; human "hi"; ai "How can I help?" ]);
    reflexivity.
Defined.



(** ** Invariants of the whole script *)

Section Preserves.

Variable I : World -> Prop.

Lemma preserves_ret {A} (a : A) : preserves I (ret a).
Proof. intros w H. exact H. Qed.

Lemma preserves_raise {A} (e : exn) : preserves I (@raise A e).
Proof. intros w H. exact H. Qed.

Lemma preserves_bind {A C} (m : M A) (k : A -> M C) :
  preserves I m -> (forall a, preserves I (k a)) -> preserves I (bind m k).
Proof.
  intros Hm Hk w H. unfold bind. specialize (Hm w H).
  destruct (m w) as [[a|e] w1]; cbn [snd] in *; [|exact Hm].
  now apply Hk.
Qed.

Lemma preserves_try_except_Exception {A} (body : M A) (handler : exn -> M A) :
  preserves I body -> (forall e, preserves I (handler e)) ->
  preserves I (try_except_Exception body handler).
Proof.
  intros Hb Hh w H. unfold try_except_Exception. specialize (Hb w H).
  destruct (body w) as [[a|e] w1]; cbn [snd] in *; [exact Hb|].
  destruct (is_Exception e); [now apply Hh | exact Hb].
Qed.

Lemma preserves_try_except {A} (body handler : M A) :
  preserves I body -> preserves I handler ->
  preserves I (try_except body handler).
Proof.
  intros Hb Hh w H. unfold try_except. specialize (Hb w H).
  destruct (body w) as [[a|e] w1]; cbn [snd] in *; [exact Hb|].
  now apply Hh.
Qed.

Lemma preserves_if {A} (b : bool) (m1 m2 : M A) :
  preserves I m1 -> preserves I m2 -> preserves I (if b then m1 else m2).
Proof. destruct b; auto. Qed.

Variable E : Env.

Hypothesis I_log : forall ev w, not_listing ev = true -> I w -> I (log ev w).
Hypothesis I_clear : forall w, I w -> I (set_messages [] w).
Hypothesis I_seed :
  forall w, messages w = None -> I w -> I (set_messages [greeting] w).
Hypothesis I_append :
  forall m ms w, messages w = Some ms -> role_ok m = true -> I w ->
                 I (set_messages (ms ++ [m])%list w).
Hypothesis I_name : preserves I (get_working_model_name E).
Hypothesis I_store : preserves I (get_vector_store E).

Lemma preserves_emit ev : not_listing ev = true -> preserves I (emit ev).
Proof. intros Hev w H. now apply I_log. Qed.

Lemma preserves_call {A} ev (oracle : list Event -> ext A) :
  not_listing ev = true -> preserves I (call ev oracle).
Proof. intros Hev w H. now apply I_log. Qed.

Ltac preserve :=
  repeat first
    [ apply preserves_ret
    | apply preserves_raise
    | apply preserves_emit; reflexivity
    | apply preserves_call; reflexivity
    | apply preserves_bind; [ | intros ]
    | apply preserves_try_except_Exception; [ | intros ]
    | apply preserves_try_except
    | apply preserves_if ].

Lemma generate_answer_preserves q vs h : preserves I (generate_answer E q vs h).
Proof.
  unfold generate_answer.
  apply preserves_bind; [exact I_name | intros n].
  apply preserves_bind; [apply preserves_call; reflexivity | intros docs].
  apply preserves_bind; [unfold answer_stage, invoke_model; preserve|].
  intros [err | [answer model]]; [apply preserves_ret|].
  apply preserves_if; [|apply preserves_ret].
  unfold web_fallback, invoke_model, checking_online. preserve.
Qed.

Lemma append_message_preserves m :
  role_ok m = true -> preserves I (append_message m).
Proof.
  intros Hm w H. unfold append_message.
  destruct (messages w) as [ms|] eqn:Hms; cbn [snd]; [|exact H].
  now apply I_append.
Qed.

Lemma chat_surface_preserves inp vs : preserves I (chat_surface E inp vs).
Proof.
  unfold chat_surface.
  apply preserves_bind; [|intros _].
  { intros w H. destruct (messages w) eqn:Hm; cbn [snd]; [exact H|].
    now apply I_seed. }
  apply preserves_bind; [|intros history].
  { intros w H. unfold get_messages. now destruct (messages w). }
  apply preserves_bind; [|intros _].
  { induction history as [|m ms IH]; simpl; [apply preserves_ret|].
    apply preserves_bind; [apply preserves_emit; reflexivity|].
    intros _. exact IH. }
  apply preserves_bind; [apply preserves_emit; reflexivity | intros _].
  destruct (chat_input inp) as [user_input|]; [|apply preserves_ret].
  destruct (truthy user_input); [|apply preserves_ret].
  apply preserves_bind; [apply preserves_emit; reflexivity | intros _].
  apply preserves_bind; [apply append_message_preserves; reflexivity|].
  intros _.
  apply preserves_bind; [apply preserves_emit; reflexivity | intros _].
  apply preserves_bind; [apply preserves_emit; reflexivity | intros _].
  apply preserves_bind; [|intros history'].
  { intros w H. unfold get_messages. now destruct (messages w). }
  apply preserves_bind; [apply generate_answer_preserves|].
  intros response_text.
  apply preserves_bind; [apply preserves_emit; reflexivity | intros _].
  apply append_message_preserves; reflexivity.
Qed.

Lemma script_preserves inp : preserves I (script E inp).
Proof.
  unfold script.
  apply preserves_bind; [|intros _].
  { unfold page_top, keys_error. cbv zeta. preserve.
    intros w H. now apply I_clear. }
  apply preserves_bind; [exact I_store | intros [vs|]].
  - apply chat_surface_preserves.
  - apply preserves_ret.
Qed.

Lemma interaction_preserves inp : preserves I (interaction E inp).
Proof.
  intros w H. unfold interaction.
  pose proof (script_preserves inp H) as H1.
  destruct (script E inp w) as [[[]|e] w1]; cbn [snd] in *; [exact H1|].
  destruct e; try exact H1. now apply script_preserves.
Qed.

End Preserves.

Lemma forallb_role_ok (ms : list Message) :
  forallb role_ok ms = true ->
  Forall (fun m => role m = "ai" \/ role m = "human") ms.
Proof.
  intros H. apply Forall_forall. intros m Hin.
  apply (proj1 (forallb_forall _ _) H) in Hin.
  unfold role_ok in Hin. apply orb_true_iff in Hin as [Hr|Hr];
    apply String.eqb_eq in Hr; auto.
Qed.

Lemma history_ok_interaction (E : Env) inp :
  preserves history_ok (interaction E inp).
Proof.
  apply interaction_preserves.
  - intros ev w _ H ms Hm. now apply H.
  - intros w _ ms Hm. cbn in Hm. now injection Hm as <-.
  - intros w _ _ ms Hm. cbn in Hm. now injection Hm as <-.
  - intros m ms w Hms Hr H ms' Hm. cbn in Hm. injection Hm as <-.
    rewrite forallb_app, (H ms Hms). cbn. now rewrite Hr.
  - intros w H ms Hm.
    destruct (get_working_model_name_returns E w) as (n & w1 & Hn & Hk & _).
    rewrite Hn in Hm. cbn [snd] in Hm. rewrite Hk in Hm. now apply H.
  - intros w H ms Hm.
    destruct (get_vector_store_keeps E w) as (v & evs & _ & _ & _ & Hk & _).
    rewrite Hk in Hm. now apply H.
Qed.

(** X9: in a fresh process, whatever is submitted, reset or answered, and
    whatever the services return, every message ever stored has the role
    ai or human. *)
Theorem stored_roles (steps : list (Env * Inputs)) (ms : list Message) :
  messages (serve steps initial_world) = Some ms ->
  Forall (fun m => role m = "ai" \/ role m = "human") ms.
Proof.
  intros Hm. apply forallb_role_ok.
  assert (H : forall l w, history_ok w -> history_ok (serve l w)).
  { induction l as [|[E inp] l IH]; intros w Hw; simpl; [exact Hw|].
    apply IH. now apply history_ok_interaction. }
  apply (H steps initial_world); [|exact Hm].
  intros ms' Hn. discriminate.
Qed.

Lemma stored_roles_witness :
  Forall (fun m => role m = "ai" \/ role m = "human")
         [greeting; human Sample.roaming_question; ai Sample.roaming_answer].
Proof.
  apply (@stored_roles
           [ (Sample.env_web, no_inputs);
             (Sample.env_web, Startup.submit Sample.roaming_question) ]).
  vm_compute. reflexivity.
Defined.

(** ** The model name across interactions *)

Lemma count_log_other p ev w :
  p ev = false -> count p (trace (log ev w)) = count p (trace w).
Proof.
  intros H. rewrite trace_log, count_app. unfold count at 2. simpl.
  rewrite H. simpl. lia.
Qed.

Lemma listed_interaction (E : Env) inp :
  preserves listed_at_most_once (interaction E inp).
Proof.
  assert (Hsame : forall w w',
            trace w' = trace w -> model_name_cache w' = model_name_cache w ->
            listed_at_most_once w -> listed_at_most_once w').
  { intros w w' Ht Hc [H1 H2]. unfold listed_at_most_once.
    rewrite Ht, Hc. now split. }
  apply interaction_preserves.
  - intros ev w Hev [H1 H2]. unfold listed_at_most_once.
    apply negb_true_iff in Hev.
    rewrite (count_log_other is_list_models ev w Hev). now split.
  - intros w. now apply Hsame.
  - intros w _. now apply Hsame.
  - intros m ms w _ _. now apply Hsame.
  - intros w [H1 H2]. unfold get_working_model_name, cache_resource.
    destruct (model_name_cache w) as [n|] eqn:Hc.
    { cbn [snd]. split; [exact H1 | intros Hn; congruence]. }
    specialize (H2 eq_refl). unfold get_working_model_name_body.
    destruct (list_models E (trace w)) as [ys f].
    assert (Hgoal : forall n,
              listed_at_most_once (set_model_name_cache n (log EvListModels w))).
    { intros n. split; [|discriminate].
      cbn [trace set_model_name_cache]. rewrite trace_log, count_app, H2.
      cbv; lia. }
    destruct (pick_model ys); [apply Hgoal|]. destruct f; apply Hgoal.
  - intros w [H1 H2].
    destruct (get_vector_store_keeps E w)
      as (v & evs & _ & Htr & Hs & _ & Hc & _).
    assert (H0 : count is_list_models evs = 0).
    { revert Hs. apply count_zero. now intros []. }
    unfold listed_at_most_once. rewrite Htr, Hc, count_app, H0.
    split; [lia|]. intros Hn. rewrite (H2 Hn). reflexivity.
Qed.

Lemma settled_interaction (E : Env) inp n :
  preserves (model_settled n) (interaction E inp).
Proof.
  apply interaction_preserves; unfold model_settled.
  - intros ev w _ H. exact H.
  - intros w H. exact H.
  - intros w _ H. exact H.
  - intros m ms w _ _ H. exact H.
  - intros w H. now rewrite (get_working_model_name_cached E w H).
  - intros w H.
    destruct (get_vector_store_keeps E w) as (v & evs & _ & _ & _ & _ & Hc & _).
    now rewrite Hc.
Qed.

(** X10: over a whole process the models are listed at most once; once a
    name is in the slot of [get_working_model_name], no interaction
    changes it, and every later call returns it without listing, whatever
    the service would list by then. *)
Theorem models_listed_once (steps : list (Env * Inputs)) :
  count is_list_models (trace (serve steps initial_world)) <= 1 /\
  forall n w E,
    model_name_cache w = Some n ->
    model_name_cache (serve steps w) = Some n /\
    get_working_model_name E (serve steps w) = (Ret n, serve steps w).
Proof.
  split.
  - assert (H : forall l w, listed_at_most_once w ->
                            listed_at_most_once (serve l w)).
    { induction l as [|[E inp] l IH]; intros w Hw; simpl; [exact Hw|].
      apply IH. now apply listed_interaction. }
    apply (H steps initial_world). split; [cbv; lia | reflexivity].
  - intros n w E Hn.
    assert (H : forall l w0, model_settled n w0 -> model_settled n (serve l w0)).
    { induction l as [|[E' inp] l IH]; intros w0 Hw; simpl; [exact Hw|].
      apply IH. now apply settled_interaction. }
    specialize (H steps w Hn). split; [exact H|].
    now apply get_working_model_name_cached.
Qed.

Lemma models_listed_once_witness :
  model_name_cache
    (serve [ (Extra.env_listing_breaks,
              Startup.submit Sample.roaming_question) ]
           (Demo.busy Demo.store_ok))
  = Some "models/gemini-1.5-flash".
Proof.
  apply (proj2 (models_listed_once
                  [ (Extra.env_listing_breaks,
                     Startup.submit Sample.roaming_question) ])
           "models/gemini-1.5-flash" (Demo.busy Demo.store_ok)
           Sample.env_web eq_refl).
Defined.

(** ** Keys *)

(** X11: with either key missing or set to the empty string, every run
    stops right after the error message: a click on the reset button does
    not clear the history, a submission is not stored, nothing is read and
    no service is called. *)
Theorem missing_key_stops_every_run (E : Env) (inp : Inputs) (w : World) :
  getenv E "GOOGLE_API_KEY" = None \/ getenv E "GOOGLE_API_KEY" = Some "" \/
  getenv E "TAVILY_API_KEY" = None \/ getenv E "TAVILY_API_KEY" = Some "" ->
  interaction E inp w = (Raise StopException, log keys_error w) /\
  messages (snd (interaction E inp w)) = messages w /\
  events_since w (snd (interaction E inp w)) = [keys_error].
Proof.
  intros H.
  assert (Hk : keys_present E = false).
  { unfold keys_present.
    destruct H as [H|[H|[H|H]]]; rewrite H; cbn;
      rewrite ?andb_false_r; reflexivity. }
  unfold interaction. rewrite (script_stop E inp w Hk).
  split; [reflexivity|]. split; [reflexivity|].
  now apply events_since_app.
Qed.

Lemma missing_key_stops_every_run_witness :
  interaction Extra.env_empty_key Startup.clear (Demo.busy Demo.store_ok)
  = (Raise StopException, log keys_error (Demo.busy Demo.store_ok)).
Proof.
  apply (@missing_key_stops_every_run Extra.env_empty_key Startup.clear
           (Demo.busy Demo.store_ok)).
  right. left. reflexivity.
Defined.

(** ** What can leave a run *)

Lemma generate_answer_raises (E : Env) q vs h w e :
  fst (generate_answer E q vs h w) = Raise e ->
  exists msg, similarity_search vs q 3 = Failure msg /\ e = PyException msg.
Proof.
  intros H.
  destruct (similarity_search vs q 3) as [docs|msg] eqn:Hs.
  - destruct (generate_answer_returns E q vs h w Hs) as [s Hr].
    congruence.
  - exists msg. split; [reflexivity|].
    destruct (get_working_model_name_returns E w) as (n & w1 & Hn & _).
    rewrite (generate_answer_eq E q vs h w Hn) in H. cbv zeta in H.
    rewrite Hs in H. cbn in H. congruence.
Qed.

Lemma chat_surface_seed (E : Env) inp vs w :
  messages w = None ->
  chat_surface E inp vs w = chat_surface E inp vs (set_messages [greeting] w).
Proof.
  intros Hm. unfold chat_surface. unfold bind at 1. rewrite Hm.
  symmetry. unfold bind at 1. reflexivity.
Qed.

Lemma chat_surface_raises (E : Env) inp vs w e :
  fst (chat_surface E inp vs w) = Raise e ->
  exists u msg,
    chat_input inp = Some u /\ truthy u = true /\
    similarity_search vs u 3 = Failure msg /\ e = PyException msg.
Proof.
  assert (Hsome : forall w0 ms, messages w0 = Some ms ->
            fst (chat_surface E inp vs w0) = Raise e ->
            exists u msg,
              chat_input inp = Some u /\ truthy u = true /\
              similarity_search vs u 3 = Failure msg /\ e = PyException msg).
  { intros w0 ms Hm H.
    destruct (truthy_opt (chat_input inp)) eqn:Hi.
    - destruct (chat_input inp) as [u|] eqn:Hu; [|discriminate].
      cbn [truthy_opt] in Hi.
      set (w1 := set_messages (ms ++ [human u])
                   (append_events
                      (map UiChatMessage ms ++
                       [chat_box; UiChatMessage (human u); UiChatOpen "ai";
                        UiSpinner "Thinking..."])
                      w0)).
      pose proof (generate_answer_keeps_messages E u vs (ms ++ [human u])%list w1)
        as Hkeep.
      pose proof (@generate_answer_raises E u vs (ms ++ [human u])%list w1)
        as Hraise.
      destruct (generate_answer E u vs (ms ++ [human u]) w1) as [r w'] eqn:Hg.
      cbn [fst snd] in *.
      rewrite (@chat_surface_submit E inp vs w0 ms u r w' Hu Hi Hm Hg Hkeep)
        in H.
      destruct r as [s|e']; cbn in H; [discriminate|].
      injection H as ->. destruct (Hraise e eq_refl) as (msg & Hs & ->).
      exists u, msg. repeat split; auto.
    - rewrite (chat_surface_unsubmitted E inp vs w0 Hi) in H.
      rewrite (chat_surface_idle E no_inputs vs w0 eq_refl) in H.
      discriminate. }
  destruct (messages w) as [ms|] eqn:Hm.
  - now apply (Hsome w ms).
  - rewrite (chat_surface_seed E inp vs w Hm).
    now apply (Hsome (set_messages [greeting] w) [greeting]).
Qed.

(** X12: an exception leaves a run of the script in three cases only:
    the stop of the key check, the rerun asked by the reset button, and a
    retrieval failure on a submitted question; and a rerun never asks for
    another one, so an interaction is at most two runs. *)
Theorem script_exceptions (E : Env) (inp : Inputs) (w : World) (e : exn) :
  fst (script E inp w) = Raise e ->
  fst (interaction E inp w) <> Raise RerunException /\
  ((e = StopException /\ keys_present E = false) \/
   (e = RerunException /\ keys_present E = true /\ clear_clicked inp = true) \/
   (exists u vs msg,
       e = PyException msg /\
       keys_present E = true /\ clear_clicked inp = false /\
       chat_input inp = Some u /\ truthy u = true /\
       vector_store_cache (snd (script E inp w)) = Some (Some vs) /\
       similarity_search vs u 3 = Failure msg)).
Proof.
  intros H.
  destruct (keys_present E) eqn:Hk.
  2:{ unfold interaction. rewrite (script_stop E inp w Hk) in *.
      cbn in H. injection H as <-. split; [discriminate | now left]. }
  destruct (clear_clicked inp) eqn:Hc.
  { unfold interaction. rewrite (script_clear E inp w Hk Hc) in *.
    cbn in H. injection H as <-.
    split; [apply script_no_inputs_no_rerun | right; left; now repeat split]. }
  rewrite script_eq, (page_top_plain E inp w Hk Hc) in H.
  unfold interaction.
  rewrite script_eq, (page_top_plain E inp w Hk Hc).
  destruct (get_vector_store_keeps E (append_events top_events w))
    as (v & evs & Hg & _ & _ & _ & _ & Hv & _).
  rewrite Hg in *.
  set (w2 := snd (get_vector_store E (append_events top_events w))) in *.
  destruct v as [vs|]; [|discriminate].
  destruct (chat_surface_raises E inp vs w2 H) as (u & msg & Hu & Ht & Hs & ->).
  destruct (chat_surface_framed E inp vs w2) as [_ Hcc].
  destruct (chat_surface E inp vs w2) as [r w3]. cbn [fst snd] in *.
  subst r. split; [discriminate|].
  right; right. exists u, vs, msg. repeat split; auto. congruence.
Qed.

Lemma script_exceptions_witness :
  fst (interaction Sample.env_web Startup.clear (Demo.busy Demo.store_ok))
  <> Raise RerunException.
Proof.
  apply (@script_exceptions Sample.env_web Startup.clear
           (Demo.busy Demo.store_ok) RerunException eq_refl).
Defined.

(** ** PDFs without pages *)

Lemma flat_map_nil {A B} (l : list A) : flat_map (fun _ : A => @nil B) l = [].
Proof. induction l; simpl; auto. Qed.

(** X13: when the folder holds PDF files but every one of them loads
    without yielding a page, the build stops after reading them all with
    the message "No PDF files found in 'data' folder!", and the splitter
    and the index builder are not called. *)
Theorem pdfs_without_pages (E : Env) (files : list string) (w : World) :
  vector_store_cache w = None ->
  path_exists E data_folder = true ->
  listdir E data_folder = Success files ->
  (forall f, In f files -> is_pdf f = true ->
             pdf_load E (path_join data_folder f) = Success []) ->
  get_vector_store E w
  = (Ret None,
     set_vector_store_cache None
       (append_events
          ([EvPathExists data_folder; EvListdir data_folder] ++
           map load_event (filter is_pdf files) ++ [no_pdf_error]) w)).
Proof.
  intros Hc Hp Hl Hload.
  unfold get_vector_store, cache_resource. rewrite Hc.
  unfold get_vector_store_body, bind at 1, call at 1. cbn [lift_ext].
  rewrite Hp. cbn [negb].
  unfold try_except_Exception, bind at 1, call at 1. rewrite Hl.
  cbn [lift_ext]. unfold bind at 1.
  rewrite (load_all_ok E (fun _ => []) files [] _ Hload).
  cbn [app]. rewrite flat_map_nil.
  unfold bind, emit, ret, no_pdf_error.
  rewrite !log_as_append, !append_events_append.
  reflexivity.
Qed.

Lemma pdfs_without_pages_witness :
  get_vector_store Blank.env_blank_pdfs initial_world
  = (Ret None,
     set_vector_store_cache None
       (append_events
          [ EvPathExists "data"; EvListdir "data";
            EvLoadPdf "data/scan1.pdf"; EvLoadPdf "data/scan2.pdf";
            UiError "No PDF files found in 'data' folder!" ]
          initial_world)).
Proof.
  apply (@pdfs_without_pages Blank.env_blank_pdfs
           ["scan1.pdf"; "scan2.pdf"] initial_world);
    reflexivity.
Defined.
